(** * The preamble rule of the SIP validator

    A shallow embedding of [tools/validate/src/rules/preamble.ts]: the
    JavaScript values the rule handles, the regular expressions it matches
    with, and the [yaml] visitor that reports diagnostics on the
    front-matter of a proposal. *)

From Stdlib Require Import List NArith ZArith Bool String Ascii Arith Lia.
From Stdlib Require Import FinFun.
From Stdlib Require Import DecimalNat DecimalString Floats.PrimFloat.
Import ListNotations.

Set Implicit Arguments.
#[local] Set Warnings "-register-all".
Local Open Scope nat_scope.
Local Open Scope list_scope.

(** ** JavaScript strings

    A string is its sequence of UTF-16 code units. *)

Definition jsstring : Type := list N.

Definition str (s : string) : jsstring :=
  map N_of_ascii (list_ascii_of_string s).
Arguments str s%_string.

Fixpoint jsstring_eqb (a b : jsstring) : bool :=
  match a, b with
  | [], [] => true
  | x :: a', y :: b' => N.eqb x y && jsstring_eqb a' b'
  | _, _ => false
  end.

(** [` ... "x" ... `]: the double quote of the template literals. *)
Definition dquote : jsstring := [34%N].

Definition between (lo hi c : N) : bool := N.leb lo c && N.leb c hi.

(** LineTerminator: LF, CR, LS, PS. *)
Definition is_line_terminator (c : N) : bool :=
  N.eqb c 10 || N.eqb c 13 || N.eqb c 8232 || N.eqb c 8233.

(** WhiteSpace and LineTerminator, the characters of [\s] and of [trim]. *)
Definition is_space (c : N) : bool :=
  between 9 13 c || N.eqb c 32 || N.eqb c 160 || N.eqb c 5760
  || between 8192 8202 c || N.eqb c 8232 || N.eqb c 8233 || N.eqb c 8239
  || N.eqb c 8287 || N.eqb c 12288 || N.eqb c 65279.

Definition is_digit (c : N) : bool := between 48 57 c.
Definition is_lower (c : N) : bool := between 97 122 c.
Definition is_upper (c : N) : bool := between 65 90 c.

(** [\w] *)
Definition is_word (c : N) : bool :=
  is_lower c || is_upper c || is_digit c || N.eqb c 95.

(** [[a-zA-Z\d]] *)
Definition is_alnum (c : N) : bool := is_lower c || is_upper c || is_digit c.

(** [.] without the [s] flag *)
Definition is_dot (c : N) : bool := negb (is_line_terminator c).

Fixpoint drop_while (p : N -> bool) (s : jsstring) : jsstring :=
  match s with
  | [] => []
  | c :: s' => if p c then drop_while p s' else s
  end.

(** [String.prototype.trim] *)
Definition trim (s : jsstring) : jsstring :=
  rev (drop_while is_space (rev (drop_while is_space s))).

(** [String.prototype.split] with a separator of one code unit. *)
Fixpoint split (sep : N) (s : jsstring) : list jsstring :=
  match s with
  | [] => [[]]
  | c :: s' =>
      if N.eqb c sep then [] :: split sep s'
      else match split sep s' with
           | [] => [[c]]
           | piece :: pieces => (c :: piece) :: pieces
           end
  end.

(** [s.substring(from, to)] for [from <= to]. *)
Definition substring (from to : nat) (s : jsstring) : jsstring :=
  firstn (to - from) (skipn from s).

(** [Number(s)] on a string of decimal digits. *)
Definition Number_of_digits (s : jsstring) : Z :=
  fold_left (fun acc c => (10 * acc + (Z.of_N c - 48))%Z) s 0%Z.

(** ** Regular expressions

    The patterns of the rule use character classes, sequence, alternation,
    greedy quantifiers, capturing and non-capturing groups, one lookahead
    and the two line assertions.  The matcher is the backtracking matcher of
    ECMA-262 (22.2.2), in continuation-passing style. *)

Module RegExp.

Inductive regex : Type :=
| Empty
| Chars (p : N -> bool)
| Seq (r1 r2 : regex)
| Alt (r1 r2 : regex)
| Quant (r : regex) (min : nat) (max : option nat)
| Group (i : nat) (r : regex)
| Ahead (r : regex)
| Bol
| Eol.

Definition Chr (c : string) : regex :=
  Chars (fun x => match str c with [y] => N.eqb x y | _ => false end).
Arguments Chr c%_string.
Definition Star (r : regex) : regex := Quant r 0 None.
Definition Plus (r : regex) : regex := Quant r 1 None.
Definition Opt (r : regex) : regex := Quant r 0 (Some 1).

Fixpoint seq_of (rs : list regex) : regex :=
  match rs with
  | [] => Empty
  | [r] => r
  | r :: rs' => Seq r (seq_of rs')
  end.

(** The capturing groups inside a pattern, by index (from 1). *)
Fixpoint groups (r : regex) : list nat :=
  match r with
  | Seq r1 r2 | Alt r1 r2 => groups r1 ++ groups r2
  | Quant r' _ _ | Ahead r' => groups r'
  | Group i r' => i :: groups r'
  | _ => []
  end.

Record MatchState : Type := mkState {
  endIndex : nat;
  captures : list (option jsstring)
}.

Definition Continuation : Type := MatchState -> option MatchState.

Fixpoint set_capture (i : nat) (v : option jsstring)
    (caps : list (option jsstring)) : list (option jsstring) :=
  match caps, i with
  | [], _ => []
  | _ :: caps', 0 => v :: caps'
  | c :: caps', S i' => c :: set_capture i' v caps'
  end.

Definition clear_captures (gs : list nat) (x : MatchState) : MatchState :=
  mkState (endIndex x)
          (fold_left (fun caps g => set_capture (g - 1) None caps) gs (captures x)).

Section Matcher.
Variable input : jsstring.
Variable multiline : bool.

Definition at_line_start (e : nat) : bool :=
  match e with
  | 0 => true
  | S e' => multiline &&
            match nth_error input e' with
            | Some c => is_line_terminator c
            | None => false
            end
  end.

Definition at_line_end (e : nat) : bool :=
  match nth_error input e with
  | None => true
  | Some c => multiline && is_line_terminator c
  end.

(** RepeatMatcher for a greedy quantifier, given the matcher [m] of its
    atom and the capturing groups [parens] inside the atom.  [fuel] is what
    is left of [max]; when [max] is infinite, at most [min] iterations may
    leave [endIndex] unchanged and every other one advances it, so [min]
    plus the rest of the input bounds the iterations. *)
Fixpoint RepeatMatcher (m : MatchState -> Continuation -> option MatchState)
    (parens : list nat) (c : Continuation) (fuel min : nat) (x : MatchState)
    {struct fuel} : option MatchState :=
  match fuel with
  | 0 => c x
  | S fuel' =>
      let d := fun y : MatchState =>
        if (min =? 0) && (endIndex y =? endIndex x) then None
        else RepeatMatcher m parens c fuel' (pred min) y in
      let xr := clear_captures parens x in
      if min =? 0 then
        match m xr d with
        | Some z => Some z
        | None => c x
        end
      else m xr d
  end.

(** The iterations a quantifier may need from the state [x]. *)
Definition iterations (min : nat) (max : option nat) (x : MatchState) : nat :=
  match max with
  | Some n => n
  | None => min + (List.length input - endIndex x)
  end.

Fixpoint matcher (r : regex) (x : MatchState) (c : Continuation)
    {struct r} : option MatchState :=
  match r with
  | Empty => c x
  | Chars p =>
      match nth_error input (endIndex x) with
      | Some ch => if p ch then c (mkState (S (endIndex x)) (captures x))
                   else None
      | None => None
      end
  | Seq r1 r2 => matcher r1 x (fun y => matcher r2 y c)
  | Alt r1 r2 =>
      match matcher r1 x c with
      | Some z => Some z
      | None => matcher r2 x c
      end
  | Quant r' min max =>
      RepeatMatcher (matcher r') (groups r') c (iterations min max x) min x
  | Group i r' =>
      matcher r' x (fun y =>
        c (mkState (endIndex y)
             (set_capture (i - 1)
                (Some (substring (endIndex x) (endIndex y) input))
                (captures y))))
  | Ahead r' =>
      match matcher r' x (fun y => Some y) with
      | Some y => c (mkState (endIndex x) (captures y))
      | None => None
      end
  | Bol => if at_line_start (endIndex x) then c x else None
  | Eol => if at_line_end (endIndex x) then c x else None
  end.

(** RegExpBuiltinExec without the [g] and [y] flags: [lastIndex] is 0,
    and the start index moves right until a match or the end of input. *)
Fixpoint exec_from (r : regex) (ngroups : nat) (tries : nat) (i : nat)
    : option (list (option jsstring)) :=
  match matcher r (mkState i (repeat None ngroups)) (fun y => Some y) with
  | Some y => Some (Some (substring i (endIndex y) input) :: captures y)
  | None =>
      match tries with
      | 0 => None
      | S tries' => exec_from r ngroups tries' (S i)
      end
  end.

End Matcher.

(** A compiled pattern, with the number of its capturing groups and its
    [m] flag. *)
Record RegExp : Type := mkRegExp {
  source : regex;
  ngroups : nat;
  flag_m : bool
}.

(** [re.exec(s)], and [s.match(re)] for a pattern without the [g] flag:
    [None] is [null]; the array holds the matched text and then one entry
    per capturing group, [None] for [undefined]. *)
Definition exec (re : RegExp) (s : jsstring) : option (list (option jsstring)) :=
  exec_from s (flag_m re) (source re) (ngroups re) (List.length s) 0.

End RegExp.

(** ** The constants of the rule *)

Import RegExp.

(** [new Map([["sip", "number"], ...])] *)
Definition HEADER_TYPES : list (jsstring * jsstring) :=
  [ (str "sip", str "number");
    (str "title", str "string");
    (str "status", str "string");
    (str "author", str "string");
    (str "created", str "string");
    (str "updated", str "string") ].

Definition HEADER_ORDER : list jsstring :=
  [ str "sip"; str "title"; str "status"; str "category"; str "author";
    str "created"; str "updated" ].

(** The sets are kept in insertion order, the order [forEach] visits. *)
Definition HEADER_REQUIRED : list jsstring :=
  [ str "sip"; str "title"; str "status"; str "category"; str "author";
    str "created" ].

Definition HEADER_OPTIONAL : list jsstring := [ str "updated" ].

Definition HEADER_ALL : list jsstring := HEADER_REQUIRED ++ HEADER_OPTIONAL.

Definition HEADER_DATES : list jsstring := [ str "created"; str "updated" ].

Definition STATUES : list jsstring :=
  [ str "Draft"; str "Review"; str "Final"; str "Withdrawn"; str "Living" ].

Definition CATEGORIES : list jsstring :=
  [ str "Core"; str "Blockchain"; str "Meta" ].

(** [/^(?<year>\d\d\d\d)\-(?<month>\d\d)\-(?<day>\d\d)$/]: the groups
    [year], [month] and [day] are the groups 1, 2 and 3. *)
Definition ISO8601 : RegExp :=
  let d := Chars is_digit in
  mkRegExp
    (seq_of [ Bol; Group 1 (seq_of [d; d; d; d]); Chr "-";
              Group 2 (seq_of [d; d]); Chr "-";
              Group 3 (seq_of [d; d]); Eol ])
    3 false.

(** [/^([a-z]+):.+$/m] *)
Definition HEADERS_REGEX : RegExp :=
  mkRegExp
    (seq_of [ Bol; Group 1 (Plus (Chars is_lower)); Chr ":";
              Plus (Chars is_dot); Eol ])
    1 true.

(** [[a-zA-Z\d](?:[a-zA-Z\d]|-(?=[a-zA-Z\d])){0,38}] *)
Definition GITHUB_USERNAME : regex :=
  Seq (Chars is_alnum)
      (Quant (Alt (Chars is_alnum) (Seq (Chr "-") (Ahead (Chars is_alnum))))
             0 (Some 38)).

(** [.+@.+] *)
Definition EMAIL : regex :=
  seq_of [ Plus (Chars is_dot); Chr "@"; Plus (Chars is_dot) ].

(** [\(\@${GITHUB_USERNAME}\)] *)
Definition HANDLE : regex :=
  seq_of [ Chr "("; Chr "@"; GITHUB_USERNAME; Chr ")" ].

(** [^\w[.\w\s]*(?: (?:\<${EMAIL}\>(?: (\(\@${GITHUB_USERNAME}\)))?)|(\(\@${GITHUB_USERNAME}\)))?$] *)
Definition AUTHOR : RegExp :=
  mkRegExp
    (seq_of
       [ Bol;
         Chars is_word;
         Star (Chars (fun c => N.eqb c 46 || is_word c || is_space c));
         Opt (Alt
                (Seq (Chr " ")
                     (seq_of [ Chr "<"; EMAIL; Chr ">";
                               Opt (Seq (Chr " ") (Group 1 HANDLE)) ]))
                (Group 2 HANDLE));
         Eol ])
    2 false.

(** ** JavaScript values

    What [YAML.parse] returns: [null], booleans, numbers (IEEE 754 doubles),
    strings, arrays, and plain objects, whose own properties are kept in
    the order [Object.keys] lists them. *)

Inductive JsValue : Type :=
| VNull
| VBoolean (b : bool)
| VNumber (x : float)
| VString (s : jsstring)
| VArray (items : list JsValue)
| VObject (props : list (jsstring * JsValue)).

Definition typeof (v : JsValue) : jsstring :=
  match v with
  | VNull => str "object"
  | VBoolean _ => str "boolean"
  | VNumber _ => str "number"
  | VString _ => str "string"
  | VArray _ => str "object"
  | VObject _ => str "object"
  end.

(** The canonical decimal string of an array index. *)
Definition index_key (i : nat) : jsstring :=
  str (DecimalString.NilEmpty.string_of_uint (Nat.to_uint i)).

(** [Object.entries]: the own enumerable string-keyed properties. *)
Definition Object_entries (v : JsValue) : list (jsstring * JsValue) :=
  match v with
  | VObject props => props
  | VArray items => combine (map index_key (seq 0 (List.length items))) items
  | VString s =>
      combine (map index_key (seq 0 (List.length s)))
              (map (fun c => VString [c]) s)
  | _ => []
  end.

Definition Object_keys (v : JsValue) : list jsstring :=
  map fst (Object_entries v).

(** Membership in a list of strings: [Set.prototype.has] on a set of
    strings, [Map.prototype.has] on the keys of a map. *)
Definition has (set : list jsstring) (key : jsstring) : bool :=
  existsb (jsstring_eqb key) set.

(** [new Set(keys)]: insertion order, the first occurrence kept. *)
Fixpoint Set_of (keys : list jsstring) : list jsstring :=
  match keys with
  | [] => []
  | k :: keys' =>
      k :: filter (fun k' => negb (jsstring_eqb k' k)) (Set_of keys')
  end.

(** [Map.prototype.get] *)
Fixpoint Map_get (map : list (jsstring * jsstring)) (key : jsstring)
    : option jsstring :=
  match map with
  | [] => None
  | (k, v) :: map' => if jsstring_eqb key k then Some v else Map_get map' key
  end.

(** [set.has(v)] for a value [v] and a set of strings (SameValueZero). *)
Definition has_value (set : list jsstring) (v : JsValue) : bool :=
  match v with
  | VString s => has set s
  | _ => false
  end.

(** [v === s] for a string literal [s]. *)
Definition strict_equals (v : option JsValue) (s : jsstring) : bool :=
  match v with
  | Some (VString s') => jsstring_eqb s' s
  | _ => false
  end.

(** The property names every object inherits from [Object.prototype]. *)
Definition Object_prototype_keys : list jsstring :=
  [ str "constructor"; str "__defineGetter__"; str "__defineSetter__";
    str "hasOwnProperty"; str "__lookupGetter__"; str "__lookupSetter__";
    str "isPrototypeOf"; str "propertyIsEnumerable"; str "toString";
    str "valueOf"; str "__proto__"; str "toLocaleString" ].

(** The property names an array inherits from [Array.prototype]. *)
Definition Array_prototype_keys : list jsstring :=
  [ str "constructor"; str "at"; str "concat";
    str "copyWithin"; str "fill"; str "find"; str "findIndex";
    str "findLast"; str "findLastIndex"; str "lastIndexOf"; str "pop";
    str "push"; str "reverse"; str "shift"; str "unshift"; str "slice";
    str "sort"; str "splice"; str "includes"; str "indexOf"; str "join";
    str "keys"; str "entries"; str "values"; str "forEach"; str "filter";
    str "flat"; str "flatMap"; str "map"; str "every"; str "some";
    str "reduce"; str "reduceRight"; str "toLocaleString"; str "toString";
    str "toReversed"; str "toSorted"; str "toSpliced"; str "with" ].

(** [key in a] for an array [a]: an index below its length, [length], or
    a name found along the prototype chain. *)
Definition in_array {A : Type} (key : jsstring) (a : list A) : bool :=
  has (map index_key (seq 0 (List.length a))) key
  || jsstring_eqb key (str "length")
  || has Array_prototype_keys key
  || has Object_prototype_keys key.

(** [key in v] for the decoded value.  The visitor asks it of values that
    passed [assertIsPreamble], which are objects or arrays. *)
Definition in_value (key : jsstring) (v : JsValue) : bool :=
  match v with
  | VObject props => has (map fst props) key || has Object_prototype_keys key
  | VArray items => in_array key items
  | _ => false
  end.

Fixpoint lookup (props : list (jsstring * JsValue)) (key : jsstring)
    : option JsValue :=
  match props with
  | [] => None
  | (k, v) :: props' => if jsstring_eqb key k then Some v else lookup props' key
  end.

(** [v.key] and [v[key]], [None] for [undefined].  The rule reads the keys
    [status], [category], [author], [created] and [updated] only; neither
    prototype defines one of them, so the own properties decide. *)
Definition get (v : JsValue) (key : jsstring) : option JsValue :=
  lookup (Object_entries v) key.

(** [`${x}`] for a string or [undefined]. *)
Definition to_string (x : option jsstring) : jsstring :=
  match x with
  | Some s => s
  | None => str "undefined"
  end.

(** [a !== b] for strings or [undefined]. *)
Definition strict_differs (a b : option jsstring) : bool :=
  match a, b with
  | Some x, Some y => negb (jsstring_eqb x y)
  | None, None => false
  | _, _ => true
  end.

(** ** Nodes, diagnostics and the effects of a rule *)

(** Modelled from the spec: the [AstNode] of [rule.ts], which is not among
    the sources: a discriminant of its kind, the raw text, and a position. *)
Record AstNode : Type := mkNode {
  type : jsstring;
  value : jsstring;
  position : N
}.

(** The argument of [context.report]. *)
Record Diagnostic : Type := mkDiagnostic {
  message : jsstring;
  node : AstNode
}.

Inductive Fault : Type :=
| AssertionError
| TypeError
| YAMLParseError
| Error (msg : jsstring).

(** A computation of the rule: the diagnostics reported so far, in order,
    and either a thrown fault or a value. *)
Definition Rule (A : Type) : Type := (list Diagnostic * (Fault + A))%type.

Definition ret {A : Type} (a : A) : Rule A := ([], inr a).

Definition throw {A : Type} (e : Fault) : Rule A := ([], inl e).

Definition bind {A B : Type} (m : Rule A) (f : A -> Rule B) : Rule B :=
  match m with
  | (log, inl e) => (log, inl e)
  | (log, inr a) => let (log', r) := f a in (log ++ log', r)
  end.

Definition try_catch {A : Type} (m : Rule A) (handler : Fault -> Rule A)
    : Rule A :=
  match m with
  | (log, inl e) => let (log', r) := handler e in (log ++ log', r)
  | (log, inr a) => (log, inr a)
  end.

(** [context.report(d)] *)
Definition report (d : Diagnostic) : Rule unit := ([d], inr tt).

Declare Scope rule_scope.
Delimit Scope rule_scope with rule.
Notation "x <- m ;; k" := (bind m (fun x => k))
  (at level 61, m at next level, right associativity) : rule_scope.
Notation "m ;; k" := (bind m (fun _ => k))
  (at level 61, right associativity) : rule_scope.
Local Open Scope rule_scope.

Definition when (b : bool) (m : Rule unit) : Rule unit :=
  if b then m else ret tt.

Fixpoint forEach {A : Type} (l : list A) (f : A -> Rule unit) : Rule unit :=
  match l with
  | [] => ret tt
  | a :: l' => f a ;; forEach l' f
  end.

Definition reports {A : Type} (m : Rule A) : list Diagnostic := fst m.
Definition messages {A : Type} (m : Rule A) : list jsstring :=
  map message (fst m).
Definition outcome {A : Type} (m : Rule A) : Fault + A := snd m.

(** ** The rule *)

Definition quoted (s : jsstring) : jsstring := dquote ++ s ++ dquote.

Definition msg_not_yaml : jsstring := str "The front-matter is not proper YAML".

Definition msg_required (required : jsstring) : jsstring :=
  str "Required header " ++ quoted required ++ str " is missing from preamble.".

Definition msg_unknown (header : jsstring) : jsstring :=
  str "Preamble has unknown header " ++ quoted header ++ str ".".

Definition msg_order (header : jsstring) : jsstring :=
  str "Preamble header " ++ quoted header ++ str " is not in proper order".

Definition msg_date (dateHeader : jsstring) : jsstring :=
  str "Preamble header " ++ quoted dateHeader
  ++ str " is not a valid date in ISO 8601 format".

Definition msg_status : jsstring :=
  str "Header " ++ quoted (str "status") ++ str " is not a valid status".

Definition msg_updated : jsstring :=
  str "SIP has status of " ++ quoted (str "living")
  ++ str " but doesn't have " ++ quoted (str "updated") ++ str " header".

Definition msg_category : jsstring :=
  str "Header " ++ quoted (str "category") ++ str " is not a valid category".

Definition msg_author_malformed : jsstring :=
  str "Preamble header " ++ quoted (str "author") ++ str " is malformed".

Definition msg_author_github : jsstring :=
  str "Preamble header " ++ quoted (str "author")
  ++ str " doesn't have at least one github account".

Definition msg_wrong_type (header : jsstring) (actual : jsstring)
    (expected : option jsstring) : jsstring :=
  str "Parsed header " ++ quoted header ++ str " has wrong type. Has "
  ++ quoted actual ++ str ", should be " ++ quoted (to_string expected).

(** [data.match(re)]: a [TypeError] unless [data] is a string at run time. *)
Definition String_match (data : option JsValue) (re : RegExp)
    : Rule (option (list (option jsstring))) :=
  match data with
  | Some (VString s) => ret (exec re s)
  | _ => throw TypeError
  end.

(** [data.split(sep)]: a [TypeError] unless [data] is a string at run time. *)
Definition String_split (data : option JsValue) (sep : N)
    : Rule (list jsstring) :=
  match data with
  | Some (VString s) => ret (split sep s)
  | _ => throw TypeError
  end.

(** [result.groups?.name], [None] for [undefined]. *)
Definition group (result : list (option jsstring)) (i : nat)
    : option jsstring :=
  match nth_error result i with
  | Some g => g
  | None => None
  end.

(** The local calendar date of a [Date]: [getFullYear()], [getMonth()]
    (from 0) and [getDate()]. *)
Record Date : Type := mkDate {
  getFullYear : Z;
  getMonth : Z;
  getDate : Z
}.

Definition assertIsPreamble (preamble : JsValue) : Rule unit :=
  if negb (jsstring_eqb (typeof preamble) (str "object"))
     || match preamble with VNull => true | _ => false end
  then throw (Error (str "Preamble is not YAML object"))
  else
    forEach (Object_entries preamble) (fun entry =>
      let (header, value) := entry in
      if has (map fst HEADER_TYPES) header
         && strict_differs (Some (typeof value)) (Map_get HEADER_TYPES header)
      then throw (Error (msg_wrong_type header (typeof value)
                           (Map_get HEADER_TYPES header)))
      else ret tt).

Section Rule.

(** [YAML.parse] of the [yaml] package, [None] when it throws. *)
Variable YAML_parse : jsstring -> option JsValue.

(** [new Date()] during the call. *)
Variable now : Date.

Definition isValidDate (data : option JsValue) : Rule bool :=
  result <- String_match data ISO8601 ;;
  match result with
  | None => ret false
  | Some result =>
      match group result 1, group result 2, group result 3 with
      | Some year, Some month, Some day =>
          let year := Number_of_digits year in
          let month := Number_of_digits month in
          let day := Number_of_digits day in
          ret ((year <=? getFullYear now)%Z
               && (month <=? getMonth now + 1)%Z
               && (day <=? getDate now)%Z)
      | _, _, _ => ret false
      end
  end.

(** Validate all required headers *)
Definition validate_required (node : AstNode) (headers : list jsstring)
    : Rule unit :=
  forEach HEADER_REQUIRED (fun required =>
    when (negb (has headers required))
      (report (mkDiagnostic (msg_required required) node))).

(** Validate only required and optional headers *)
Definition validate_known (node : AstNode) (headers : list jsstring)
    : Rule unit :=
  forEach headers (fun header =>
    when (negb (has HEADER_ALL header))
      (report (mkDiagnostic (msg_unknown header) node))).

(** The [for ... of] loop over [orderedHeaders], from its position
    [rest] with the counter [orderIndex]; [break] ends it. *)
Fixpoint order_loop (node : AstNode) (orderedHeaders rest : list (option jsstring))
    (orderIndex : nat) : Rule unit :=
  match rest with
  | [] => ret tt
  | header :: rest' =>
      let expected := nth_error HEADER_ORDER orderIndex in
      if in_array (to_string expected) orderedHeaders
         && strict_differs header expected
      then report (mkDiagnostic (msg_order (to_string header)) node)
      else order_loop node orderedHeaders rest' (S orderIndex)
  end.

(** [HEADERS_REGEX.exec(node.value)?.slice(1) ?? []] *)
Definition orderedHeaders_of (text : jsstring) : list (option jsstring) :=
  match exec HEADERS_REGEX text with
  | Some result => skipn 1 result
  | None => []
  end.

(** Validate header order *)
Definition validate_order (node : AstNode) : Rule unit :=
  let orderedHeaders := orderedHeaders_of (value node) in
  order_loop node orderedHeaders orderedHeaders 0.

(** Validate dates *)
Definition validate_dates (node : AstNode) (preamble : JsValue) : Rule unit :=
  forEach HEADER_DATES (fun dateHeader =>
    if in_value dateHeader preamble then
      valid <- isValidDate (get preamble dateHeader) ;;
      when (negb valid) (report (mkDiagnostic (msg_date dateHeader) node))
    else ret tt).

(** Validate proper status *)
Definition validate_status (node : AstNode) (preamble : JsValue) : Rule unit :=
  match get preamble (str "status") with
  | Some status =>
      when (negb (has_value STATUES status))
        (report (mkDiagnostic msg_status node))
  | None => ret tt
  end.

(** Validate updated *)
Definition validate_updated (node : AstNode) (preamble : JsValue) : Rule unit :=
  when (strict_equals (get preamble (str "status")) (str "living")
        && negb (in_value (str "updated") preamble))
    (report (mkDiagnostic msg_updated node)).

(** Validate proper category *)
Definition validate_category (node : AstNode) (preamble : JsValue) : Rule unit :=
  match get preamble (str "category") with
  | Some category =>
      when (negb (has_value CATEGORIES category))
        (report (mkDiagnostic msg_category node))
  | None => ret tt
  end.

(** The [for ... of] loop over [authors] with the variable [hasGithub];
    it returns the final [hasGithub]. *)
Fixpoint author_loop (node : AstNode) (authors : list jsstring)
    (hasGithub : bool) : Rule bool :=
  match authors with
  | [] => ret hasGithub
  | author :: authors' =>
      match exec AUTHOR (trim author) with
      | None =>
          report (mkDiagnostic msg_author_malformed node) ;;
          ret true
      | Some match_ =>
          author_loop node authors'
            (if 2 <=? List.length match_ then true else hasGithub)
      end
  end.

(** Validate author *)
Definition validate_author (node : AstNode) (preamble : JsValue) : Rule unit :=
  if in_value (str "author") preamble then
    authors <- String_split (get preamble (str "author")) 44 ;;
    hasGithub <- author_loop node authors false ;;
    when (negb hasGithub)
      (report (mkDiagnostic msg_author_github node))
  else ret tt.

(** The [try] block and its [catch]: the decoded preamble, or [None]
    after the report of the [catch], which returns from the visitor. *)
Definition decode (node : AstNode) : Rule (option JsValue) :=
  try_catch
    (preamble <- match YAML_parse (value node) with
                 | Some v => ret v
                 | None => throw YAMLParseError
                 end ;;
     assertIsPreamble preamble ;;
     ret (Some preamble))
    (fun _ => report (mkDiagnostic msg_not_yaml node) ;; ret None).

(** [descriptor.create(context).yaml]; the calls of [debug] only log and
    are left out. *)
Definition yaml (node : AstNode) : Rule unit :=
  (if jsstring_eqb (type node) (str "yaml") then ret tt
   else throw AssertionError) ;;
  decoded <- decode node ;;
  match decoded with
  | None => ret tt
  | Some preamble =>
      let headers := Set_of (Object_keys preamble) in
      validate_required node headers ;;
      validate_known node headers ;;
      validate_order node ;;
      validate_dates node preamble ;;
      validate_status node preamble ;;
      validate_updated node preamble ;;
      validate_category node preamble ;;
      validate_author node preamble
  end.

End Rule.

(** ** Notions the statements use *)

(** A present date header whose value [isValidDate] rejects. *)
Definition date_offends (now : Date) (preamble : JsValue)
    (dateHeader : jsstring) : bool :=
  in_value dateHeader preamble
  && match outcome (isValidDate now (get preamble dateHeader)) with
     | inr false => true
     | _ => false
     end.

(** An author string that matches [AUTHOR] once trimmed. *)
Definition author_matches (author : jsstring) : bool :=
  match exec AUTHOR (trim author) with
  | Some _ => true
  | None => false
  end.

Definition jsstring_eq_dec : forall a b : jsstring, {a = b} + {a <> b} :=
  list_eq_dec N.eq_dec.

(** The messages the visitor can report besides the ones for unknown
    headers. *)
Definition inventory : list jsstring :=
  msg_not_yaml
  :: map msg_required HEADER_REQUIRED
  ++ map msg_date HEADER_DATES
  ++ [msg_status; msg_updated; msg_category; msg_author_malformed].

(** How often a message was reported. *)
Definition count (msg : jsstring) (msgs : list jsstring) : nat :=
  count_occ jsstring_eq_dec msgs msg.

(** A continuation that hands on states with [n] capture slots. *)
Definition keeps (n : nat) (c : Continuation) : Prop :=
  forall y z, List.length (captures y) = n -> c y = Some z ->
              List.length (captures z) = n.

Section Decoding.

Variable YAML_parse : jsstring -> option JsValue.

(** The block was not decoded: [YAML.parse] threw, or
    [assertIsPreamble] did. *)
Definition rejected (node : AstNode) : Prop :=
  match YAML_parse (value node) with
  | None => True
  | Some v => exists e, outcome (assertIsPreamble v) = inl e
  end.

(** The block was decoded to [preamble]. *)
Definition decoded (node : AstNode) (preamble : JsValue) : Prop :=
  YAML_parse (value node) = Some preamble /\
  outcome (assertIsPreamble preamble) = inr tt.

End Decoding.

(** ** Sample blocks *)

Definition lf : jsstring := [10%N].

Definition lines (ls : list jsstring) : jsstring :=
  List.concat (map (fun l => l ++ lf) ls).

(** A front-matter with every required header, in the declared order. *)
Definition sample_text : jsstring :=
  lines [ str "sip: 1"; str "title: Sample"; str "status: Draft";
          str "category: Core"; str "author: Jane Doe (@janedoe)";
          str "created: 2024-01-15" ].

(** The same with its first two headers swapped. *)
Definition swapped_text : jsstring :=
  lines [ str "title: Sample"; str "sip: 1"; str "status: Draft";
          str "category: Core"; str "author: Jane Doe (@janedoe)";
          str "created: 2024-01-15" ].

Definition sample_props : list (jsstring * JsValue) :=
  [ (str "sip", VNumber 1%float);
    (str "title", VString (str "Sample"));
    (str "status", VString (str "Draft"));
    (str "category", VString (str "Core"));
    (str "author", VString (str "Jane Doe (@janedoe)"));
    (str "created", VString (str "2024-01-15")) ].

(** The object the swapped text decodes to. *)
Definition swapped_props : list (jsstring * JsValue) :=
  [ (str "title", VString (str "Sample"));
    (str "sip", VNumber 1%float);
    (str "status", VString (str "Draft"));
    (str "category", VString (str "Core"));
    (str "author", VString (str "Jane Doe (@janedoe)"));
    (str "created", VString (str "2024-01-15")) ].

(** A front-matter whose only author has no handle. *)
Definition no_handle_text : jsstring :=
  lines [ str "sip: 1"; str "title: Sample"; str "status: Draft";
          str "category: Core"; str "author: Jane Doe";
          str "created: 2024-01-15" ].

Definition no_handle_props : list (jsstring * JsValue) :=
  [ (str "sip", VNumber 1%float);
    (str "title", VString (str "Sample"));
    (str "status", VString (str "Draft"));
    (str "category", VString (str "Core"));
    (str "author", VString (str "Jane Doe"));
    (str "created", VString (str "2024-01-15")) ].

(** A front-matter whose category is a number. *)
Definition numeric_category_text : jsstring :=
  lines [ str "sip: 1"; str "title: Sample"; str "status: Draft";
          str "category: 5"; str "author: Jane Doe (@janedoe)";
          str "created: 2024-01-15" ].

Definition numeric_category_props : list (jsstring * JsValue) :=
  [ (str "sip", VNumber 1%float);
    (str "title", VString (str "Sample"));
    (str "status", VString (str "Draft"));
    (str "category", VNumber 5%float);
    (str "author", VString (str "Jane Doe (@janedoe)"));
    (str "created", VString (str "2024-01-15")) ].

(** A front-matter with one required header and one unknown header. *)
Definition partial_text : jsstring := lines [ str "sip: 1"; str "extra:" ].

Definition partial_props : list (jsstring * JsValue) :=
  [ (str "sip", VNumber 1%float); (str "extra", VNull) ].

(** A front-matter with the lowercase status. *)
Definition living_text : jsstring := lines [ str "status: living" ].

Definition living_props : list (jsstring * JsValue) :=
  [ (str "status", VString (str "living")) ].

(** A front-matter whose second author is malformed. *)
Definition bad_author_text : jsstring :=
  lines [ str "author: Jane Doe (@janedoe), ###bad###, ???" ].

Definition bad_author_props : list (jsstring * JsValue) :=
  [ (str "author", VString (str "Jane Doe (@janedoe), ###bad###, ???")) ].

(** A front-matter created in a thirteenth month. *)
Definition thirteenth_month_text : jsstring :=
  lines [ str "created: 2024-13-01" ].

Definition thirteenth_month_props : list (jsstring * JsValue) :=
  [ (str "created", VString (str "2024-13-01")) ].

(** A front-matter whose identifier is a string. *)
Definition string_sip_text : jsstring :=
  lines [ str "sip: one"; str "title: Sample" ].

Definition string_sip_props : list (jsstring * JsValue) :=
  [ (str "sip", VString (str "one")); (str "title", VString (str "Sample")) ].

(** A front-matter whose status is written in lowercase. *)
Definition lowercase_status_text : jsstring := lines [ str "status: draft" ].

Definition lowercase_status_props : list (jsstring * JsValue) :=
  [ (str "status", VString (str "draft")) ].

(** A front-matter whose author header ends in a comma. *)
Definition trailing_comma_text : jsstring :=
  lines [ str "author: Jane Doe (@janedoe)," ].

Definition trailing_comma_props : list (jsstring * JsValue) :=
  [ (str "author", VString (str "Jane Doe (@janedoe),")) ].

(** A front-matter whose authors are display names only. *)
Definition plain_names_text : jsstring :=
  lines [ str "author: Jane Doe, J. R. Roe" ].

Definition plain_names_props : list (jsstring * JsValue) :=
  [ (str "author", VString (str "Jane Doe, J. R. Roe")) ].

(** A block that is a sequence of two items. *)
Definition sequence_text : jsstring := lines [ str "- a"; str "- b" ].

Definition sequence_items : list JsValue :=
  [ VString (str "a"); VString (str "b") ].

(** 20 November 2026 *)
Definition sample_now : Date := mkDate 2026 10 20.

Definition yaml_node (text : jsstring) : AstNode := mkNode (str "yaml") text 0.

(** A decoder that returns [v] whatever the text. *)
Definition parse_to (v : JsValue) : jsstring -> option JsValue :=
  fun _ => Some v.

(** A value that is present and not in the vocabulary [set]. *)
Definition not_listed (set : list jsstring) (v : option JsValue) : bool :=
  match v with
  | Some x => negb (has_value set x)
  | None => false
  end.

(** The condition of the check of [updated]. *)
Definition living_without_updated (preamble : JsValue) : bool :=
  strict_equals (get preamble (str "status")) (str "living")
  && negb (in_value (str "updated") preamble).

(** An author header with a string in its list that does not match. *)
Definition author_offends (preamble : JsValue) : bool :=
  match get preamble (str "author") with
  | Some (VString s) => negb (forallb author_matches (split 44 s))
  | _ => false
  end.

(** The character class [[.\w\s]] of the display name. *)
Definition is_name_char (c : N) : bool :=
  N.eqb c 46 || is_word c || is_space c.

(** A preamble the field checks find nothing to report about: every
    required header is a key, every key is a known header, the date headers
    that are present hold accepted dates, the status and the category are
    in their vocabularies, and every author matches. *)
Definition well_formed (now : Date) (preamble : JsValue) : Prop :=
  (forall required, In required HEADER_REQUIRED ->
                    In required (Object_keys preamble)) /\
  (forall header, In header (Object_keys preamble) -> In header HEADER_ALL) /\
  (forall dateHeader s,
     In dateHeader HEADER_DATES ->
     get preamble dateHeader = Some (VString s) ->
     isValidDate now (Some (VString s)) = ret true) /\
  (exists s, get preamble (str "status") = Some (VString s) /\ In s STATUES) /\
  (exists s, get preamble (str "category") = Some (VString s) /\
             In s CATEGORIES) /\
  (exists s, get preamble (str "author") = Some (VString s) /\
             forall author, In author (split 44 s) ->
                            author_matches author = true).

(** Every diagnostic of a computation is located at [block]. *)
Definition at_node {A : Type} (block : AstNode) (m : Rule A) : Prop :=
  Forall (fun d => node d = block) (reports m).

(** * Properties *)

(** ** Strings *)

Lemma jsstring_eqb_eq (a b : jsstring) : jsstring_eqb a b = true <-> a = b.
Proof.
  revert b; induction a as [|x a IH]; intros [|y b]; simpl; split;
    try discriminate; try reflexivity.
  - intros H. apply andb_true_iff in H as [Hx Hab].
    apply N.eqb_eq in Hx. apply IH in Hab. now subst.
  - intros H. injection H as -> ->.
    apply andb_true_iff; split; [apply N.eqb_refl | now apply IH].
Qed.

Lemma jsstring_eqb_refl (a : jsstring) : jsstring_eqb a a = true.
Proof. now apply jsstring_eqb_eq. Qed.

Lemma has_In (set : list jsstring) (key : jsstring) :
  has set key = true <-> In key set.
Proof.
  unfold has. rewrite existsb_exists. split.
  - intros [k [Hin Heq]]. apply jsstring_eqb_eq in Heq. now subst.
  - intros Hin. exists key. split; [assumption | apply jsstring_eqb_refl].
Qed.

Lemma has_not_In (set : list jsstring) (key : jsstring) :
  has set key = false <-> ~ In key set.
Proof.
  rewrite <- has_In. destruct (has set key); split; congruence.
Qed.

(** ** The matcher keeps the number of capture slots *)

Module RegExpFacts.
Import RegExp.

Lemma set_capture_length i v caps :
  List.length (set_capture i v caps) = List.length caps.
Proof.
  revert i; induction caps as [|c caps IH]; intros [|i]; simpl; auto.
Qed.

Lemma clear_captures_length gs x :
  List.length (captures (clear_captures gs x)) = List.length (captures x).
Proof.
  unfold clear_captures; simpl. generalize (captures x) as caps.
  induction gs as [|g gs IH]; intros caps; simpl; [reflexivity|].
  now rewrite IH, set_capture_length.
Qed.

Lemma matcher_keeps input multiline n r :
  forall c, keeps n c -> keeps n (fun x => matcher input multiline r x c).
Proof.
  induction r as [ | p | r1 IH1 r2 IH2 | r1 IH1 r2 IH2 | r' IH min max
                 | i r' IH | r' IH | | ]; intros c Hc y z Hy; simpl.
  - apply Hc; assumption.
  - destruct (nth_error input (endIndex y)) as [ch|]; [|discriminate].
    destruct (p ch); [|discriminate]. apply Hc; assumption.
  - apply (IH1 (fun y => matcher input multiline r2 y c)); auto.
  - destruct (matcher input multiline r1 y c) eqn:E1.
    + intros H; injection H as <-. eapply IH1; eauto.
    + eapply IH2; eauto.
  - generalize (iterations input min max y) as fuel.
    intros fuel; revert min y Hy z.
    induction fuel as [|fuel IHf]; intros min y Hy z.
    + apply Hc; assumption.
    + cbn [RepeatMatcher].
      match goal with
      | |- context [matcher input multiline r' ?xr ?d] =>
          assert (Hd : keeps n d)
      end.
      { intros y' z' Hy'.
        destruct ((min =? 0) && (endIndex y' =? endIndex y)); [discriminate|].
        apply IHf; assumption. }
      specialize (IH _ Hd (clear_captures (groups r') y)).
      rewrite clear_captures_length in IH.
      destruct (min =? 0).
      * match goal with
        | |- context [matcher input multiline r' ?xr ?d] =>
            destruct (matcher input multiline r' xr d) eqn:E
        end.
        -- intros H; injection H as <-. eapply IH; eauto.
        -- apply Hc; assumption.
      * apply IH; assumption.
  - apply IH; [|assumption].
    intros y' z' Hy' H. apply Hc in H; [assumption|].
    simpl. now rewrite set_capture_length.
  - destruct (matcher input multiline r' y (fun y0 => Some y0)) eqn:E;
      [|discriminate].
    apply Hc. simpl. eapply (IH (fun y0 => Some y0)); eauto.
    intros y' z' Hy' H; now injection H as <-.
  - destruct (at_line_start input multiline (endIndex y));
      [apply Hc; assumption | discriminate].
  - destruct (at_line_end input multiline (endIndex y));
      [apply Hc; assumption | discriminate].
Qed.

Lemma exec_from_length input multiline r ngroups tries :
  forall i result,
    exec_from input multiline r ngroups tries i = Some result ->
    List.length result = S ngroups.
Proof.
  induction tries as [|tries IH]; intros i result; simpl;
    destruct (matcher input multiline r (mkState i (repeat None ngroups))
                (fun y => Some y)) eqn:E;
    try discriminate; try (apply IH).
  all: intros H; injection H as <-; simpl; f_equal;
    eapply (@matcher_keeps input multiline ngroups r (fun y => Some y));
    [ intros y' z' Hy' H; now injection H as <-
    | | exact E ];
    simpl; apply repeat_length.
Qed.

(** The array of a match has one entry for the matched text and one per
    capturing group. *)
Lemma exec_length re s result :
  exec re s = Some result -> List.length result = S (ngroups re).
Proof. apply exec_from_length. Qed.

(** *** The bound on the iterations is never what ends a repetition *)

Section Iterations.

Variable input : jsstring.
Variable multiline : bool.

Let m := matcher input multiline.
Let L := List.length input.

(** A matcher calls its continuation at or after the state it starts
    from, and within the input. *)
Lemma matcher_local r :
  forall x c c',
    endIndex x <= L ->
    (forall y, endIndex x <= endIndex y -> endIndex y <= L -> c y = c' y) ->
    m r x c = m r x c'.
Proof.
  unfold m, L.
  induction r as [ | p | r1 IH1 r2 IH2 | r1 IH1 r2 IH2 | r' IH min max
                 | i r' IH | r' IH | | ]; intros x c c' Hx Hc; simpl.
  - apply Hc; [lia | assumption].
  - destruct (nth_error input (endIndex x)) as [ch|] eqn:E; [|reflexivity].
    destruct (p ch); [|reflexivity].
    assert (endIndex x < List.length input)
      by (apply nth_error_Some; congruence).
    apply Hc; simpl; lia.
  - apply IH1; [assumption|]. intros y Hy Hy'.
    apply IH2; [assumption|]. intros z Hz Hz'. apply Hc; [lia | assumption].
  - rewrite (IH1 x c c' Hx Hc), (IH2 x c c' Hx Hc). reflexivity.
  - generalize (iterations input min max x) as fuel.
    intros fuel. revert min x Hx Hc.
    induction fuel as [|fuel IHf]; intros min x Hx Hc; cbn [RepeatMatcher].
    + apply Hc; [lia | assumption].
    + rewrite (Hc x) by (lia || assumption).
      match goal with
      | |- context [matcher input multiline r' ?xr ?d] =>
          match goal with
          | |- context [matcher input multiline r' xr ?d'] =>
              tryif constr_eq d d' then fail
              else assert (Hd : matcher input multiline r' xr d
                                = matcher input multiline r' xr d')
          end
      end.
      { apply IH; [exact Hx|]. simpl. intros y Hy Hy'.
        destruct ((min =? 0) && (endIndex y =? endIndex x)); [reflexivity|].
        apply IHf; [assumption|]. intros z Hz Hz'. apply Hc; [lia | assumption]. }
      rewrite Hd. reflexivity.
  - apply IH; [assumption|]. intros y Hy Hy'. apply Hc; assumption.
  - destruct (matcher input multiline r' x (fun y => Some y)); [|reflexivity].
    apply Hc; simpl; [lia | assumption].
  - destruct (at_line_start input multiline (endIndex x)); [|reflexivity].
    apply Hc; [lia | assumption].
  - destruct (at_line_end input multiline (endIndex x)); [|reflexivity].
    apply Hc; [lia | assumption].
Qed.

(** A match is the answer of the continuation. *)
Lemma matcher_fail r :
  forall x c, (forall y, c y = None) -> m r x c = None.
Proof.
  unfold m.
  induction r as [ | p | r1 IH1 r2 IH2 | r1 IH1 r2 IH2 | r' IH min max
                 | i r' IH | r' IH | | ]; intros x c Hc; simpl; auto.
  - destruct (nth_error input (endIndex x)) as [ch|]; [|reflexivity].
    destruct (p ch); auto.
  - now rewrite IH1, IH2.
  - generalize (iterations input min max x) as fuel.
    intros fuel. revert min x.
    induction fuel as [|fuel IHf]; intros min x; cbn [RepeatMatcher]; auto.
    rewrite IH.
    + now destruct (min =? 0).
    + intros y. now destruct ((min =? 0) && (endIndex y =? endIndex x)).
  - destruct (matcher input multiline r' x (fun y => Some y)); auto.
  - destruct (at_line_start input multiline (endIndex x)); auto.
  - destruct (at_line_end input multiline (endIndex x)); auto.
Qed.

(** One more iteration allowed changes nothing once [min] plus the rest
    of the input are allowed. *)
Lemma RepeatMatcher_fuel r c :
  forall fuel min x,
    endIndex x <= L -> min + (L - endIndex x) <= fuel ->
    RepeatMatcher (m r) (groups r) c fuel min x
    = RepeatMatcher (m r) (groups r) c (S fuel) min x.
Proof.
  induction fuel as [|fuel IHf]; intros min x Hx Hfuel.
  - assert (min = 0) by lia. subst min. cbn [RepeatMatcher Nat.eqb andb].
    rewrite (@matcher_local r _ _ (fun _ => None)).
    + now rewrite matcher_fail.
    + exact Hx.
    + simpl. intros y Hy Hy'.
      replace (endIndex y =? endIndex x) with true; [reflexivity|].
      symmetry. apply Nat.eqb_eq. lia.
  - cbn [RepeatMatcher].
    match goal with
    | |- context [m r ?xr ?d] =>
        match goal with
        | |- _ = (if _ then match m r xr ?d' with _ => _ end else _) =>
            assert (Hd : m r xr d = m r xr d')
        end
    end.
    { apply matcher_local; [exact Hx|]. simpl. intros y Hy Hy'.
      destruct (min =? 0) eqn:Hmin; simpl.
      - destruct (endIndex y =? endIndex x) eqn:E; [reflexivity|].
        apply Nat.eqb_neq in E. apply Nat.eqb_eq in Hmin.
        apply IHf; [assumption | lia].
      - apply Nat.eqb_neq in Hmin. apply IHf; [assumption | lia]. }
    now rewrite Hd.
Qed.

Lemma RepeatMatcher_enough r c min x :
  forall fuel,
    endIndex x <= L -> min + (L - endIndex x) <= fuel ->
    RepeatMatcher (m r) (groups r) c fuel min x
    = RepeatMatcher (m r) (groups r) c (min + (L - endIndex x)) min x.
Proof.
  intros fuel Hx Hfuel.
  replace fuel with ((fuel - (min + (L - endIndex x)))
                     + (min + (L - endIndex x))) by lia.
  generalize (fuel - (min + (L - endIndex x))) as extra.
  induction extra as [|extra IH]; [reflexivity|].
  rewrite Nat.add_succ_l, <- RepeatMatcher_fuel; [exact IH | exact Hx | lia].
Qed.

(** The quantifier without an upper bound obeys the recursive definition
    of RepeatMatcher in ECMA-262: a greedy iteration of the atom, then the
    same quantifier with [min] decreased by one, an iteration that matched
    the empty string being refused once [min] is 0. *)
Lemma Quant_unbounded r min x c :
  endIndex x <= L ->
  m (Quant r min None) x c
  = let d := fun y : MatchState =>
      if (min =? 0) && (endIndex y =? endIndex x) then None
      else m (Quant r (pred min) None) y c in
    let xr := clear_captures (groups r) x in
    if min =? 0 then
      match m r xr d with
      | Some z => Some z
      | None => c x
      end
    else m r xr d.
Proof.
  intros Hx. cbv zeta. unfold m at 1. cbn [matcher iterations].
  fold L. fold (m r).
  rewrite RepeatMatcher_fuel by (exact Hx || lia).
  cbn [RepeatMatcher].
  match goal with
  | |- (if _ then match m r ?xr ?d with _ => _ end else _)
       = (if _ then match m r _ ?d' with _ => _ end else _) =>
      assert (Hd : m r xr d = m r xr d')
  end.
  { apply matcher_local; [exact Hx|]. simpl. intros y Hy Hy'.
    destruct ((min =? 0) && (endIndex y =? endIndex x)) eqn:E;
      [reflexivity|].
    unfold m at 2. cbn [matcher iterations]. fold L. fold (m r).
    apply RepeatMatcher_enough; [exact Hy'|].
    apply andb_false_iff in E as [E|E].
    - apply Nat.eqb_neq in E. lia.
    - apply Nat.eqb_neq in E.
      destruct min; simpl; lia. }
  now rewrite Hd.
Qed.

End Iterations.

End RegExpFacts.

(** ** Reports and outcomes of composed computations *)

Lemma bind_ok {A B : Type} (m : Rule A) (f : A -> Rule B) (a : A) :
  outcome m = inr a ->
  bind m f = (reports m ++ reports (f a), outcome (f a)).
Proof.
  destruct m as [log [e|a']]; simpl; intros H; [discriminate|].
  injection H as ->. now destruct (f a).
Qed.

Lemma bind_ret {A B : Type} (a : A) (f : A -> Rule B) :
  bind (ret a) f = f a.
Proof. unfold bind, ret. now destruct (f a). Qed.

Lemma forEach_ok {A : Type} (l : list A) (f : A -> Rule unit) :
  (forall a, In a l -> outcome (f a) = inr tt) ->
  outcome (forEach l f) = inr tt /\
  messages (forEach l f) = flat_map (fun a => messages (f a)) l.
Proof.
  induction l as [|a l IH]; intros H; simpl; [now split|].
  destruct IH as [IHo IHm]; [intros; apply H; now right|].
  rewrite (@bind_ok _ _ (f a) _ tt) by (apply H; now left).
  unfold messages, outcome in *; simpl. split; [assumption|].
  rewrite map_app. now f_equal.
Qed.

Lemma forEach_all_ok {A : Type} (l : list A) (f : A -> Rule unit) :
  outcome (forEach l f) = inr tt ->
  forall a, In a l -> outcome (f a) = inr tt.
Proof.
  induction l as [|a l IH]; simpl; [contradiction|].
  intros H x [<-|Hin].
  - destruct (f a) as [log [e|[]]]; [discriminate | reflexivity].
  - apply IH; [|assumption].
    destruct (f a) as [log [e|[]]]; [discriminate|].
    simpl in H. now destruct (forEach l f).
Qed.

(** ** Array indices are strings of digits *)

Lemma string_of_uint_digits (d : Decimal.uint) :
  forallb is_digit (str (NilEmpty.string_of_uint d)) = true.
Proof. induction d; simpl; auto. Qed.

Lemma index_key_digits (i : nat) : forallb is_digit (index_key i) = true.
Proof. apply string_of_uint_digits. Qed.

Lemma not_an_index (key : jsstring) (n : nat) :
  forallb is_digit key = false ->
  has (map index_key (seq 0 n)) key = false.
Proof.
  intros Hkey. apply has_not_In. intros Hin.
  apply in_map_iff in Hin as [i [<- _]].
  rewrite index_key_digits in Hkey. discriminate.
Qed.

(** A name with a character that is no digit, absent from both prototypes
    and different from [length], is no property of any array. *)
Lemma in_array_name {A : Type} (key : jsstring) (a : list A) :
  forallb is_digit key = false ->
  jsstring_eqb key (str "length") = false ->
  has Array_prototype_keys key = false ->
  has Object_prototype_keys key = false ->
  in_array key a = false.
Proof.
  intros Hd Hl Ha Ho. unfold in_array.
  now rewrite (not_an_index _ _ Hd), Hl, Ha, Ho.
Qed.

(** The guard of the order loop: no expected header name, and not
    ["undefined"] either, is a property of the array of extracted headers. *)
Lemma expected_not_in_array {A : Type} (a : list A) (orderIndex : nat) :
  in_array (to_string (nth_error HEADER_ORDER orderIndex)) a = false.
Proof.
  do 8 (destruct orderIndex as [|orderIndex];
        [apply in_array_name; reflexivity|]).
  apply in_array_name; reflexivity.
Qed.

(** ** What a decoded preamble guarantees *)

Lemma lookup_In props key :
  In key (map fst props) ->
  exists k v, In (k, v) props /\ k = key /\ lookup props key = Some v.
Proof.
  induction props as [|[k v] props IH]; simpl; [contradiction|].
  destruct (jsstring_eqb key k) eqn:E.
  - intros _. apply jsstring_eqb_eq in E. exists k, v. auto.
  - intros [H|H].
    + subst. now rewrite jsstring_eqb_refl in E.
    + destruct (IH H) as [k' [v' [Hin [Hk Hl]]]]. exists k', v'. auto.
Qed.

Lemma forEach_silent {A : Type} (l : list A) (f : A -> Rule unit) :
  (forall a, reports (f a) = []) -> reports (forEach l f) = [].
Proof.
  intros H. induction l as [|a l IH]; simpl; [reflexivity|].
  specialize (H a). unfold reports, bind in *.
  destruct (f a) as [log [e|u]]; simpl in *; [assumption|].
  destruct (forEach l f) as [log' r]; simpl in *. now subst.
Qed.

Lemma assertIsPreamble_reports p : reports (assertIsPreamble p) = [].
Proof.
  unfold assertIsPreamble.
  destruct (negb (jsstring_eqb (typeof p) (str "object")) || _);
    [reflexivity|].
  apply forEach_silent. intros [header value].
  match goal with
  | |- context [if ?b then _ else _] => destruct b
  end; reflexivity.
Qed.

(** A value that passes [assertIsPreamble] is an object or an array. *)
Lemma assertIsPreamble_shape p :
  outcome (assertIsPreamble p) = inr tt ->
  (exists props, p = VObject props) \/ (exists items, p = VArray items).
Proof.
  destruct p; try discriminate; eauto.
Qed.

Lemma assertIsPreamble_entry p header v :
  outcome (assertIsPreamble p) = inr tt ->
  In (header, v) (Object_entries p) ->
  has (map fst HEADER_TYPES) header = true ->
  Map_get HEADER_TYPES header = Some (typeof v).
Proof.
  unfold assertIsPreamble.
  destruct (negb (jsstring_eqb (typeof p) (str "object")) || _);
    [discriminate|].
  intros Hok Hin Hhas.
  pose proof (forEach_all_ok _ _ Hok _ Hin) as H. cbv beta iota in H.
  rewrite Hhas in H. rewrite andb_true_l in H.
  destruct (Map_get HEADER_TYPES header) as [ty|] eqn:E.
  - simpl in H. destruct (jsstring_eqb (typeof v) ty) eqn:E'; [|discriminate].
    apply jsstring_eqb_eq in E'. now subst.
  - discriminate.
Qed.

(** The headers [author], [created] and [updated] hold strings whenever
    they are found in a decoded preamble. *)
Lemma decoded_string p header :
  outcome (assertIsPreamble p) = inr tt ->
  In header [str "author"; str "created"; str "updated"] ->
  in_value header p = true ->
  exists s, get p header = Some (VString s).
Proof.
  intros Hok Hh Hin.
  assert (Hname : forall A (a : list A), in_array header a = false).
  { intros A a. simpl in Hh.
    destruct Hh as [<-|[<-|[<-|[]]]]; apply in_array_name; reflexivity. }
  destruct (assertIsPreamble_shape _ Hok) as [[props ->]|[items ->]].
  - cbn [in_value] in Hin.
    assert (Hproto : has Object_prototype_keys header = false).
    { simpl in Hh. destruct Hh as [<-|[<-|[<-|[]]]]; reflexivity. }
    rewrite Hproto, orb_false_r in Hin. apply has_In in Hin.
    destruct (lookup_In _ _ Hin) as [k [v [Hkv [-> Hl]]]].
    assert (Hty : Map_get HEADER_TYPES header = Some (typeof v)).
    { apply (@assertIsPreamble_entry (VObject props)); auto.
      simpl in Hh. destruct Hh as [<-|[<-|[<-|[]]]]; reflexivity. }
    assert (Hs : typeof v = str "string").
    { simpl in Hh.
      destruct Hh as [<-|[<-|[<-|[]]]]; simpl in Hty; congruence. }
    unfold get; simpl. rewrite Hl.
    destruct v; try discriminate. eauto.
  - cbn [in_value] in Hin. rewrite Hname in Hin. discriminate.
Qed.

(** ** The checks of the rule, one by one *)

Lemma split_nonempty sep s : split sep s <> [].
Proof.
  destruct s as [|c s]; simpl; [discriminate|].
  destruct (N.eqb c sep); [discriminate|].
  destruct (split sep s); discriminate.
Qed.

(** The array of a match of [AUTHOR] has three entries. *)
Lemma AUTHOR_match_length s match_ :
  exec AUTHOR s = Some match_ -> (2 <=? List.length match_) = true.
Proof.
  intros H. apply RegExpFacts.exec_length in H. now rewrite H.
Qed.

Section Checks.

Variable YAML_parse : jsstring -> option JsValue.
Variable now : Date.
Variable node : AstNode.

Lemma forEach_when {A : Type} (l : list A) (cond : A -> bool)
    (msg : A -> jsstring) :
  let body := fun a => when (cond a) (report (mkDiagnostic (msg a) node)) in
  outcome (forEach l body) = inr tt /\
  messages (forEach l body) = map msg (filter cond l).
Proof.
  intros body.
  destruct (@forEach_ok _ l body) as [Ho Hm].
  { intros a _. unfold body. now destruct (cond a). }
  split; [assumption|]. rewrite Hm. clear Ho Hm.
  induction l as [|a l IH]; simpl; [reflexivity|].
  unfold body at 1. destruct (cond a); simpl; now rewrite IH.
Qed.

Lemma validate_required_spec headers :
  outcome (validate_required node headers) = inr tt /\
  messages (validate_required node headers)
  = map msg_required
        (filter (fun required => negb (has headers required)) HEADER_REQUIRED).
Proof. apply forEach_when. Qed.

Lemma validate_known_spec headers :
  outcome (validate_known node headers) = inr tt /\
  messages (validate_known node headers)
  = map msg_unknown
        (filter (fun header => negb (has HEADER_ALL header)) headers).
Proof. apply forEach_when. Qed.

(** The order loop reports nothing, whatever array it walks. *)
Lemma order_loop_silent orderedHeaders rest orderIndex :
  order_loop node orderedHeaders rest orderIndex = ret tt.
Proof.
  revert orderIndex; induction rest as [|header rest IH]; intros orderIndex;
    simpl; [reflexivity|].
  rewrite expected_not_in_array. simpl. apply IH.
Qed.

Lemma validate_order_silent : validate_order node = ret tt.
Proof. apply order_loop_silent. Qed.

(** On a string [isValidDate] returns, and reports nothing. *)
Lemma isValidDate_returns s :
  exists b, isValidDate now (Some (VString s)) = ret b.
Proof.
  unfold isValidDate, String_match, bind, ret.
  destruct (exec ISO8601 s) as [result|]; [|now exists false].
  destruct (group result 1) as [year|]; [|now exists false].
  destruct (group result 2) as [month|]; [|now exists false].
  destruct (group result 3) as [day|]; [|now exists false].
  eexists; reflexivity.
Qed.

Lemma validate_dates_spec preamble :
  outcome (assertIsPreamble preamble) = inr tt ->
  outcome (validate_dates now node preamble) = inr tt /\
  messages (validate_dates now node preamble)
  = map msg_date (filter (date_offends now preamble) HEADER_DATES).
Proof.
  intros Hok.
  assert (Hs : forall h, In h HEADER_DATES -> in_value h preamble = true ->
                         exists s, get preamble h = Some (VString s)).
  { intros h Hh. apply decoded_string; [assumption|]. now right. }
  unfold validate_dates.
  match goal with
  | |- context [forEach _ ?f] => set (body := f)
  end.
  assert (Hbody : forall h, In h HEADER_DATES ->
            outcome (body h) = inr tt /\
            messages (body h)
            = if date_offends now preamble h then [msg_date h] else []).
  { intros h Hh. unfold body, date_offends.
    destruct (in_value h preamble) eqn:Hin; [|now split].
    destruct (Hs h Hh Hin) as [s ->].
    destruct (isValidDate_returns s) as [b ->].
    destruct b; now split. }
  destruct (@forEach_ok _ HEADER_DATES body) as [Ho Hm].
  { intros h Hh. now apply Hbody. }
  split; [assumption|]. rewrite Hm.
  assert (Hall : forall l, (forall h, In h l -> In h HEADER_DATES) ->
            flat_map (fun h => messages (body h)) l
            = map msg_date (filter (date_offends now preamble) l)).
  { induction l as [|h l IH]; intros Hl; simpl; [reflexivity|].
    destruct (Hbody h (Hl h (or_introl eq_refl))) as [_ ->].
    rewrite IH by (intros; apply Hl; now right).
    now destruct (date_offends now preamble h). }
  apply Hall; auto.
Qed.

Lemma validate_status_spec preamble :
  outcome (validate_status node preamble) = inr tt /\
  incl (messages (validate_status node preamble)) [msg_status].
Proof.
  unfold validate_status.
  destruct (get preamble (str "status")) as [status|];
    [destruct (has_value STATUES status)|]; simpl; split;
    auto using incl_nil_l, incl_refl.
Qed.

Lemma validate_updated_spec preamble :
  outcome (validate_updated node preamble) = inr tt /\
  messages (validate_updated node preamble)
  = if strict_equals (get preamble (str "status")) (str "living")
       && negb (in_value (str "updated") preamble)
    then [msg_updated] else [].
Proof.
  unfold validate_updated.
  destruct (strict_equals _ _ && _); now split.
Qed.

Lemma validate_category_spec preamble :
  outcome (validate_category node preamble) = inr tt /\
  incl (messages (validate_category node preamble)) [msg_category].
Proof.
  unfold validate_category.
  destruct (get preamble (str "category")) as [category|];
    [destruct (has_value CATEGORIES category)|]; simpl; split;
    auto using incl_nil_l, incl_refl.
Qed.

(** The author loop: silent with [hasGithub] set after the first author
    when every author matches, and otherwise one report, at the first
    author that does not match. *)
Lemma author_loop_spec authors hasGithub :
  author_loop node authors hasGithub
  = if forallb author_matches authors
    then ([], inr (match authors with [] => hasGithub | _ => true end))
    else ([mkDiagnostic msg_author_malformed node], inr true).
Proof.
  revert hasGithub; induction authors as [|author authors IH];
    intros hasGithub; cbn [author_loop forallb]; [reflexivity|].
  unfold author_matches at 1.
  destruct (exec AUTHOR (trim author)) as [match_|] eqn:E;
    cbn [andb]; [|reflexivity].
  rewrite (AUTHOR_match_length _ E), IH.
  destruct (forallb author_matches authors); [|reflexivity].
  now destruct authors.
Qed.

Lemma validate_author_spec preamble :
  outcome (assertIsPreamble preamble) = inr tt ->
  outcome (validate_author node preamble) = inr tt /\
  messages (validate_author node preamble)
  = match get preamble (str "author") with
    | Some (VString s) =>
        if in_value (str "author") preamble
           && negb (forallb author_matches (split 44 s))
        then [msg_author_malformed] else []
    | _ => []
    end.
Proof.
  intros Hok. unfold validate_author.
  destruct (in_value (str "author") preamble) eqn:Hin.
  - destruct (@decoded_string preamble (str "author") Hok) as [s ->];
      [now left | assumption |].
    unfold String_split, bind, ret.
    rewrite author_loop_spec.
    destruct (forallb author_matches (split 44 s)); simpl.
    + pose proof (@split_nonempty 44%N s).
      destruct (split 44 s); [contradiction|]. now split.
    + now split.
  - split; [reflexivity|].
    destruct (get preamble (str "author")) as [[]|]; reflexivity.
Qed.

End Checks.

(** ** The visitor as a whole *)

Lemma bind_ok_messages {A B : Type} (m : Rule A) (f : A -> Rule B) (a : A) :
  outcome m = inr a ->
  messages (bind m f) = messages m ++ messages (f a).
Proof.
  intros H. rewrite (bind_ok m f H). unfold messages; simpl.
  apply map_app.
Qed.

Lemma bind_ok_outcome {A B : Type} (m : Rule A) (f : A -> Rule B) (a : A) :
  outcome m = inr a -> outcome (bind m f) = outcome (f a).
Proof. intros H. now rewrite (bind_ok m f H). Qed.

Section Visitor.

Variable YAML_parse : jsstring -> option JsValue.
Variable now : Date.

Lemma rejected_or_decoded node :
  rejected YAML_parse node \/ exists preamble, decoded YAML_parse node preamble.
Proof.
  unfold rejected, decoded.
  destruct (YAML_parse (value node)) as [v|]; [|now left].
  destruct (outcome (assertIsPreamble v)) as [e|[]] eqn:E; eauto.
Qed.

Lemma decode_rejected node :
  rejected YAML_parse node ->
  decode YAML_parse node = ([mkDiagnostic msg_not_yaml node], inr None).
Proof.
  unfold rejected, decode.
  destruct (YAML_parse (value node)) as [v|]; [|reflexivity].
  intros [e He]. pose proof (assertIsPreamble_reports v) as Hr.
  unfold outcome, reports, try_catch, bind, ret, report in *.
  destruct (assertIsPreamble v) as [log r]; simpl in *. now subst.
Qed.

Lemma decode_decoded node preamble :
  decoded YAML_parse node preamble ->
  decode YAML_parse node = ([], inr (Some preamble)).
Proof.
  unfold decoded, decode. intros [-> Hok].
  pose proof (assertIsPreamble_reports preamble) as Hr.
  unfold outcome, reports, try_catch, bind, ret, report in *.
  destruct (assertIsPreamble preamble) as [log r]; simpl in *. now subst.
Qed.

Lemma yaml_rejected node :
  type node = str "yaml" -> rejected YAML_parse node ->
  yaml YAML_parse now node = ([mkDiagnostic msg_not_yaml node], inr tt).
Proof.
  intros Hty Hrej. unfold yaml.
  rewrite Hty, jsstring_eqb_refl, (@decode_rejected node Hrej). reflexivity.
Qed.

Lemma yaml_decoded node preamble :
  type node = str "yaml" -> decoded YAML_parse node preamble ->
  let headers := Set_of (Object_keys preamble) in
  outcome (yaml YAML_parse now node) = inr tt /\
  messages (yaml YAML_parse now node)
  = messages (validate_required node headers)
    ++ messages (validate_known node headers)
    ++ messages (validate_dates now node preamble)
    ++ messages (validate_status node preamble)
    ++ messages (validate_updated node preamble)
    ++ messages (validate_category node preamble)
    ++ messages (validate_author node preamble).
Proof.
  intros Hty Hdec headers. pose proof Hdec as [_ Hok].
  unfold yaml.
  rewrite Hty, jsstring_eqb_refl, (@decode_decoded node preamble Hdec).
  rewrite bind_ret.
  change ([], inr (Some preamble)) with (ret (A:=option JsValue) (Some preamble)).
  rewrite bind_ret. fold headers.
  destruct (validate_required_spec node headers) as [H1 _].
  destruct (validate_known_spec node headers) as [H2 _].
  pose proof (validate_order_silent node) as H3.
  destruct (@validate_dates_spec now node preamble Hok) as [H4 _].
  destruct (validate_status_spec node preamble) as [H5 _].
  destruct (validate_updated_spec node preamble) as [H6 _].
  destruct (validate_category_spec node preamble) as [H7 _].
  destruct (@validate_author_spec node preamble Hok) as [H8 _].
  rewrite H3.
  split.
  - rewrite (bind_ok_outcome _ _ H1), (bind_ok_outcome _ _ H2).
    rewrite bind_ret.
    rewrite (bind_ok_outcome _ _ H4), (bind_ok_outcome _ _ H5),
      (bind_ok_outcome _ _ H6), (bind_ok_outcome _ _ H7).
    assumption.
  - rewrite (bind_ok_messages _ _ H1), (bind_ok_messages _ _ H2).
    rewrite bind_ret.
    rewrite (bind_ok_messages _ _ H4), (bind_ok_messages _ _ H5),
      (bind_ok_messages _ _ H6), (bind_ok_messages _ _ H7).
    reflexivity.
Qed.

End Visitor.

(** ** Telling the messages apart *)

Lemma quoted_inj a b suffix : quoted a ++ suffix = quoted b ++ suffix -> a = b.
Proof.
  intros H. apply app_inv_tail in H. unfold quoted, dquote in H.
  injection H as H. now apply app_inv_tail in H.
Qed.

Lemma msg_required_inj a b : msg_required a = msg_required b -> a = b.
Proof.
  unfold msg_required. intros H. apply app_inv_head in H.
  now apply quoted_inj in H.
Qed.

Lemma msg_date_inj a b : msg_date a = msg_date b -> a = b.
Proof.
  unfold msg_date. intros H. apply app_inv_head in H.
  now apply quoted_inj in H.
Qed.

Lemma msg_unknown_prefix header :
  firstn 12 (msg_unknown header) = str "Preamble has".
Proof. reflexivity. Qed.

Lemma msg_order_prefix header :
  firstn 12 (msg_order header) = str "Preamble hea".
Proof. reflexivity. Qed.

Lemma msg_order_last header : firstn 1 (rev (msg_order header)) = str "r".
Proof.
  unfold msg_order. now rewrite !rev_app_distr.
Qed.

Lemma count_app msg l1 l2 : count msg (l1 ++ l2) = count msg l1 + count msg l2.
Proof. apply count_occ_app. Qed.

Lemma count_absent msg l : ~ In msg l -> count msg l = 0.
Proof. apply count_occ_not_In. Qed.

Lemma count_incl_absent msg l fixed :
  incl l fixed -> has fixed msg = false -> count msg l = 0.
Proof.
  intros Hincl Hhas. apply count_absent. intros Hin.
  apply has_not_In in Hhas. auto.
Qed.

(** One message per selected element, when the elements are distinct and
    the messages tell them apart. *)
Lemma count_map_filter (g : jsstring -> jsstring) (cond : jsstring -> bool)
    (l : list jsstring) (x : jsstring) :
  (forall a b, g a = g b -> a = b) -> NoDup l -> In x l ->
  count (g x) (map g (filter cond l)) = if cond x then 1 else 0.
Proof.
  intros Hinj Hnd Hin. unfold count.
  assert (Hout : forall l', ~ In x l' ->
            count_occ jsstring_eq_dec (map g (filter cond l')) (g x) = 0).
  { intros l' Hx. apply count_occ_not_In. intros H.
    apply in_map_iff in H as [y [Hy Hf]]. apply Hinj in Hy. subst y.
    apply filter_In in Hf as [Hf _]. contradiction. }
  induction Hnd as [|a l Ha Hnd IH]; [contradiction|].
  destruct Hin as [->|Hin].
  - simpl. destruct (cond x); simpl.
    + destruct (jsstring_eq_dec (g x) (g x)); [|contradiction].
      now rewrite Hout.
    + now apply Hout.
  - simpl. destruct (cond a); simpl; [|now apply IH].
    destruct (jsstring_eq_dec (g a) (g x)) as [E|_]; [|now apply IH].
    apply Hinj in E. subst a. contradiction.
Qed.

Lemma map_filter_incl (g : jsstring -> jsstring) (cond : jsstring -> bool)
    (l : list jsstring) :
  incl (map g (filter cond l)) (map g l).
Proof.
  intros m H. apply in_map_iff in H as [y [<- Hy]].
  apply filter_In in Hy as [Hy _]. now apply in_map.
Qed.

Section OtherChecks.

Variable now : Date.
Variable node : AstNode.
Variable msg : jsstring.

(** A message is not reported by a check whose messages it is not
    among. *)
Lemma required_other headers :
  has (map msg_required HEADER_REQUIRED) msg = false ->
  count msg (messages (validate_required node headers)) = 0.
Proof.
  destruct (validate_required_spec node headers) as [_ ->].
  apply count_incl_absent, map_filter_incl.
Qed.

Lemma known_other headers :
  jsstring_eqb (firstn 12 msg) (str "Preamble has") = false ->
  count msg (messages (validate_known node headers)) = 0.
Proof.
  destruct (validate_known_spec node headers) as [_ ->].
  intros H. apply count_absent. intros Hin.
  apply in_map_iff in Hin as [header [<- _]].
  now rewrite msg_unknown_prefix in H.
Qed.

Lemma dates_other preamble :
  outcome (assertIsPreamble preamble) = inr tt ->
  has (map msg_date HEADER_DATES) msg = false ->
  count msg (messages (validate_dates now node preamble)) = 0.
Proof.
  intros Hok. destruct (@validate_dates_spec now node preamble Hok) as [_ ->].
  apply count_incl_absent, map_filter_incl.
Qed.

Lemma status_other preamble :
  has [msg_status] msg = false ->
  count msg (messages (validate_status node preamble)) = 0.
Proof.
  destruct (validate_status_spec node preamble) as [_ H].
  now apply count_incl_absent.
Qed.

Lemma updated_other preamble :
  has [msg_updated] msg = false ->
  count msg (messages (validate_updated node preamble)) = 0.
Proof.
  destruct (validate_updated_spec node preamble) as [_ ->].
  apply count_incl_absent.
  destruct (_ && _); auto using incl_nil_l, incl_refl.
Qed.

Lemma category_other preamble :
  has [msg_category] msg = false ->
  count msg (messages (validate_category node preamble)) = 0.
Proof.
  destruct (validate_category_spec node preamble) as [_ H].
  now apply count_incl_absent.
Qed.

Lemma author_other preamble :
  outcome (assertIsPreamble preamble) = inr tt ->
  has [msg_author_malformed] msg = false ->
  count msg (messages (validate_author node preamble)) = 0.
Proof.
  intros Hok. destruct (@validate_author_spec node preamble Hok) as [_ ->].
  apply count_incl_absent.
  destruct (get preamble (str "author")) as [[]|];
    try destruct (_ && _); auto using incl_nil_l, incl_refl.
Qed.

End OtherChecks.

(** ** The visitor never throws *)

Lemma yaml_outcome YAML_parse now node :
  type node = str "yaml" -> outcome (yaml YAML_parse now node) = inr tt.
Proof.
  intros Hty.
  destruct (rejected_or_decoded YAML_parse node) as [Hrej|[preamble Hdec]].
  - now rewrite (@yaml_rejected YAML_parse now node Hty Hrej).
  - now destruct (@yaml_decoded YAML_parse now node preamble Hty Hdec).
Qed.

(** C9: on a node of type [yaml] the visitor returns normally, whatever
    the text of the block and whatever [YAML.parse] makes of it; all it
    leaves is the sequence of its reports. *)
Theorem yaml_never_faults YAML_parse now node :
  type node = str "yaml" ->
  yaml YAML_parse now node = (reports (yaml YAML_parse now node), inr tt).
Proof.
  intros Hty. pose proof (@yaml_outcome YAML_parse now node Hty) as H.
  unfold outcome, reports in *.
  destruct (yaml YAML_parse now node) as [log r]; simpl in *. now subst.
Qed.

Lemma yaml_never_faults_witness :
  let node := yaml_node (str "author: [1, 2]") in
  let YAML_parse := parse_to (VObject [(str "author", VArray [])]) in
  yaml YAML_parse sample_now node
  = (reports (yaml YAML_parse sample_now node), inr tt).
Proof. apply yaml_never_faults. reflexivity. Defined.

(** ** Counting a message over the whole visit *)

Lemma yaml_wrong_type YAML_parse now node :
  jsstring_eqb (type node) (str "yaml") = false ->
  yaml YAML_parse now node = ([], inl AssertionError).
Proof. intros H. unfold yaml. now rewrite H. Qed.

Lemma yaml_count YAML_parse now node preamble msg :
  type node = str "yaml" -> decoded YAML_parse node preamble ->
  let headers := Set_of (Object_keys preamble) in
  count msg (messages (yaml YAML_parse now node))
  = count msg (messages (validate_required node headers))
    + (count msg (messages (validate_known node headers))
    + (count msg (messages (validate_dates now node preamble))
    + (count msg (messages (validate_status node preamble))
    + (count msg (messages (validate_updated node preamble))
    + (count msg (messages (validate_category node preamble))
    + count msg (messages (validate_author node preamble))))))).
Proof.
  intros Hty Hdec headers.
  destruct (@yaml_decoded YAML_parse now node preamble Hty Hdec) as [_ ->].
  fold headers. now rewrite !count_app.
Qed.

(** Closes [count msg (messages check) = 0] for a check that does not
    report [msg]. *)
Ltac other_check Hok :=
  first
    [ apply required_other; reflexivity
    | apply known_other; reflexivity
    | apply dates_other; [exact Hok | reflexivity]
    | apply status_other; reflexivity
    | apply updated_other; reflexivity
    | apply category_other; reflexivity
    | apply author_other; [exact Hok | reflexivity] ].

Lemma has_filter_other l key k :
  jsstring_eqb key k = false ->
  has (filter (fun k' => negb (jsstring_eqb k' k)) l) key = has l key.
Proof.
  intros E. unfold has.
  induction l as [|k' l IH]; simpl; [reflexivity|].
  destruct (jsstring_eqb k' k) eqn:E'; simpl.
  - apply jsstring_eqb_eq in E'. subst k'. now rewrite E, IH.
  - now rewrite IH.
Qed.

Lemma Set_of_has keys key : has (Set_of keys) key = has keys key.
Proof.
  induction keys as [|k keys IH]; [reflexivity|].
  change (has (Set_of (k :: keys)) key)
    with (jsstring_eqb key k
          || has (filter (fun k' => negb (jsstring_eqb k' k)) (Set_of keys)) key).
  change (has (k :: keys) key) with (jsstring_eqb key k || has keys key).
  destruct (jsstring_eqb key k) eqn:E; [reflexivity|].
  cbn [orb]. now rewrite has_filter_other.
Qed.

(** Every message of a visit is in the inventory or names an unknown
    header. *)
Lemma yaml_messages YAML_parse now node msg :
  In msg (messages (yaml YAML_parse now node)) ->
  In msg inventory \/ exists header, msg = msg_unknown header.
Proof.
  destruct (jsstring_eqb (type node) (str "yaml")) eqn:Hty.
  2: { now rewrite (@yaml_wrong_type YAML_parse now node Hty). }
  apply jsstring_eqb_eq in Hty.
  destruct (rejected_or_decoded YAML_parse node) as [Hrej|[preamble Hdec]].
  { rewrite (@yaml_rejected YAML_parse now node Hty Hrej).
    intros [<-|[]]. left. now left. }
  pose proof Hdec as [_ Hok].
  destruct (@yaml_decoded YAML_parse now node preamble Hty Hdec) as [_ ->].
  destruct (validate_required_spec node (Set_of (Object_keys preamble)))
    as [_ ->].
  destruct (validate_known_spec node (Set_of (Object_keys preamble)))
    as [_ ->].
  destruct (@validate_dates_spec now node preamble Hok) as [_ ->].
  destruct (validate_status_spec node preamble) as [_ Hs].
  destruct (validate_updated_spec node preamble) as [_ ->].
  destruct (validate_category_spec node preamble) as [_ Hc].
  destruct (@validate_author_spec node preamble Hok) as [_ ->].
  rewrite !in_app_iff.
  unfold inventory. cbn [In]. rewrite !in_app_iff.
  intros [H|[H|[H|[H|[H|[H|H]]]]]].
  - apply map_filter_incl in H. auto.
  - apply in_map_iff in H as [header [<- _]]. eauto.
  - apply map_filter_incl in H. auto.
  - apply Hs in H. destruct H as [<-|[]]. left. right. right. right.
    now left.
  - destruct (_ && _); [|contradiction]. destruct H as [<-|[]].
    left. right. right. right. right. now left.
  - apply Hc in H. destruct H as [<-|[]]. left. right. right. right.
    right. right. now left.
  - destruct (get preamble (str "author")) as [[]|]; try contradiction.
    destruct (_ && _); [|contradiction]. destruct H as [<-|[]].
    left. right. right. right. right. right. right. now left.
Qed.

(** ** The order check *)

(** At most one header is extracted: the pattern has no [g] flag, so
    [exec] stops at the first line that matches. *)
Lemma orderedHeaders_length text : List.length (orderedHeaders_of text) <= 1.
Proof.
  unfold orderedHeaders_of.
  destruct (exec HEADERS_REGEX text) as [result|] eqn:E; simpl; [|lia].
  apply RegExpFacts.exec_length in E.
  destruct result as [|full result]; simpl in *; lia.
Qed.

(** C10: the order diagnostic is never reported.  The array of extracted
    headers has at most one element; the guard [HEADER_ORDER[orderIndex] in
    orderedHeaders] asks whether a header name is a property of that array,
    and is false for every array and every index; so the visitor reports no
    message of the form [Preamble header "..." is not in proper order], for
    any header, on any input. *)
Theorem order_diagnostic_never_reported YAML_parse now node header :
  List.length (orderedHeaders_of (value node)) <= 1 /\
  (forall orderIndex,
     in_array (to_string (nth_error HEADER_ORDER orderIndex))
              (orderedHeaders_of (value node)) = false) /\
  validate_order node = ret tt /\
  ~ In (msg_order header) (messages (yaml YAML_parse now node)).
Proof.
  split; [apply orderedHeaders_length|].
  split; [intros; apply expected_not_in_array|].
  split; [apply validate_order_silent|].
  intros H. apply yaml_messages in H as [H|[unknown H]].
  - unfold inventory in H. cbn [In map app HEADER_REQUIRED HEADER_DATES] in H.
    repeat (destruct H as [H|H];
            [ pose proof (f_equal (firstn 12) H) as Hp;
              pose proof (f_equal (fun m => firstn 1 (rev m)) H) as Hl;
              cbv beta in Hl;
              rewrite msg_order_prefix in Hp; rewrite msg_order_last in Hl;
              vm_compute in Hp; vm_compute in Hl; congruence | ]).
    contradiction.
  - pose proof (f_equal (firstn 12) H) as Hp.
    rewrite msg_order_prefix, msg_unknown_prefix in Hp.
    vm_compute in Hp. discriminate.
Qed.

(** C1: with the first two headers swapped in the text, the claim expects
    one order diagnostic; the visitor extracts the first header only,
    finds the guard false and reports nothing at all, as it does for the
    same headers in the declared order. *)
Theorem swapped_headers_not_reported :
  orderedHeaders_of swapped_text = [Some (str "title")] /\
  yaml (parse_to (VObject swapped_props)) sample_now (yaml_node swapped_text)
  = ([], inr tt) /\
  yaml (parse_to (VObject sample_props)) sample_now (yaml_node sample_text)
  = ([], inr tt).
Proof. repeat split; vm_compute; reflexivity. Qed.

(** ** The author check *)

(** C2: for the single author [Jane Doe] the claim expects the diagnostic
    that asks for a handle.  The match succeeds with both captures
    undefined, yet its array has three entries, so [match.length >= 2]
    holds and [hasGithub] is set: the visitor reports nothing for that
    block, and never reports that diagnostic on any input. *)
Theorem handle_diagnostic_never_reported :
  exec AUTHOR (trim (str "Jane Doe")) = Some [Some (str "Jane Doe"); None; None] /\
  yaml (parse_to (VObject no_handle_props)) sample_now (yaml_node no_handle_text)
  = ([], inr tt) /\
  forall YAML_parse now node,
    ~ In msg_author_github (messages (yaml YAML_parse now node)).
Proof.
  split; [vm_compute; reflexivity|].
  split; [vm_compute; reflexivity|].
  intros YAML_parse now node H.
  apply yaml_messages in H as [H|[unknown H]].
  - apply has_In in H. vm_compute in H. discriminate.
  - pose proof (f_equal (firstn 12) H) as Hp.
    rewrite msg_unknown_prefix in Hp. vm_compute in Hp. discriminate.
Qed.

(** ** The loader *)

(** Scalars and [null] do not pass the loader. *)
Lemma scalar_rejected YAML_parse node v :
  YAML_parse (value node) = Some v ->
  (forall items, v <> VArray items) -> (forall props, v <> VObject props) ->
  rejected YAML_parse node.
Proof.
  intros Hv Ha Ho. unfold rejected. rewrite Hv.
  destruct v; simpl; eauto.
  - now destruct (Ha items).
  - now destruct (Ho props).
Qed.

(** C3: for a block that decodes to an array the claim expects the single
    diagnostic of the loader.  [typeof] of an array is ["object"], so
    [assertIsPreamble] lets it pass, and the field checks run: the empty
    array gets one diagnostic per required header and none from the
    loader. *)
Theorem array_passes_the_loader now :
  outcome (assertIsPreamble (VArray [])) = inr tt /\
  messages (yaml (parse_to (VArray [])) now (yaml_node (str "[]")))
  = map msg_required HEADER_REQUIRED.
Proof. split; vm_compute; reflexivity. Qed.

(** A header listed in [HEADER_TYPES] whose value has another type makes
    the loader throw. *)
Lemma wrong_type_rejected YAML_parse node props header v declared :
  YAML_parse (value node) = Some (VObject props) ->
  In (header, v) props ->
  Map_get HEADER_TYPES header = Some declared ->
  typeof v <> declared ->
  rejected YAML_parse node.
Proof.
  intros Hv Hin Hget Hty. unfold rejected. rewrite Hv.
  destruct (outcome (assertIsPreamble (VObject props))) as [e|[]] eqn:E;
    [eauto|].
  assert (Hhas : has (map fst HEADER_TYPES) header = true).
  { clear -Hget. unfold HEADER_TYPES in *. simpl in *.
    repeat match type of Hget with
           | (if ?b then _ else _) = _ => destruct b; [reflexivity|]
           end.
    discriminate. }
  pose proof (@assertIsPreamble_entry (VObject props) header v E Hin Hhas) as H.
  congruence.
Qed.

(** C4: for a category that is a number the claim expects the loader to
    fail.  [HEADER_TYPES] has no entry for [category], so the loader
    accepts the block and the category check reports instead. *)
Theorem numeric_category_passes_the_loader :
  Map_get HEADER_TYPES (str "category") = None /\
  outcome (assertIsPreamble (VObject numeric_category_props)) = inr tt /\
  messages (yaml (parse_to (VObject numeric_category_props)) sample_now
              (yaml_node numeric_category_text))
  = [msg_category].
Proof. repeat split; vm_compute; reflexivity. Qed.

(** ** Required headers *)

Lemma HEADER_REQUIRED_NoDup : NoDup HEADER_REQUIRED.
Proof.
  unfold HEADER_REQUIRED.
  repeat (constructor;
          [ cbn [In]; intros H;
            repeat (destruct H as [H|H]; [vm_compute in H; discriminate|]);
            exact H | ]).
  constructor.
Qed.

Lemma count_required YAML_parse now node preamble required :
  type node = str "yaml" -> decoded YAML_parse node preamble ->
  In required HEADER_REQUIRED ->
  count (msg_required required) (messages (yaml YAML_parse now node))
  = if has (Object_keys preamble) required then 0 else 1.
Proof.
  intros Hty Hdec Hreq. pose proof Hdec as [_ Hok].
  rewrite (@yaml_count YAML_parse now node preamble _ Hty Hdec).
  cbv zeta.
  destruct (validate_required_spec node (Set_of (Object_keys preamble)))
    as [_ ->].
  rewrite (@count_map_filter msg_required _ HEADER_REQUIRED required
             msg_required_inj HEADER_REQUIRED_NoDup Hreq).
  rewrite Set_of_has.
  assert (H0 : forall n1 n2 n3 n4 n5 n6 : nat,
            n1 = 0 -> n2 = 0 -> n3 = 0 -> n4 = 0 -> n5 = 0 -> n6 = 0 ->
            forall k, k + (n1 + (n2 + (n3 + (n4 + (n5 + n6))))) = k)
    by (intros; lia).
  rewrite H0; try other_check Hok.
  now destruct (has (Object_keys preamble) required).
Qed.

(** C8: in a decoded preamble every required header that is not among the
    parsed keys gets its diagnostic, once, whatever else the block
    violates; the quantification is over every required header, so several
    of them are reported in one call. *)
Theorem missing_required_header_reported YAML_parse now node preamble required :
  type node = str "yaml" -> decoded YAML_parse node preamble ->
  In required HEADER_REQUIRED ->
  ~ In required (Object_keys preamble) ->
  count (msg_required required) (messages (yaml YAML_parse now node)) = 1.
Proof.
  intros Hty Hdec Hreq Habsent.
  rewrite (@count_required YAML_parse now node preamble required Hty Hdec Hreq).
  apply has_not_In in Habsent. now rewrite Habsent.
Qed.

Lemma missing_required_header_reported_witness :
  count (msg_required (str "author"))
        (messages (yaml (parse_to (VObject partial_props)) sample_now
                     (yaml_node partial_text))) = 1.
Proof.
  apply (@missing_required_header_reported
           (parse_to (VObject partial_props)) sample_now
           (yaml_node partial_text) (VObject partial_props) (str "author")).
  - reflexivity.
  - split; reflexivity.
  - vm_compute. tauto.
  - vm_compute. intros [H|[H|[]]]; discriminate.
Defined.

(** ** The conditional requirement of [updated] *)

(** C6: in a decoded preamble whose status is the lowercase string
    [living] and which has no [updated] header, the conditional diagnostic
    is reported, once.  The status vocabulary holds [Living] and not
    [living], so the same block also gets the status diagnostic. *)
Theorem living_without_updated_reported YAML_parse now node preamble :
  type node = str "yaml" -> decoded YAML_parse node preamble ->
  get preamble (str "status") = Some (VString (str "living")) ->
  in_value (str "updated") preamble = false ->
  count msg_updated (messages (yaml YAML_parse now node)) = 1 /\
  count msg_status (messages (yaml YAML_parse now node)) = 1 /\
  has STATUES (str "living") = false /\
  has STATUES (str "Living") = true.
Proof.
  intros Hty Hdec Hstatus Hupdated. pose proof Hdec as [_ Hok].
  repeat split.
  - rewrite (@yaml_count YAML_parse now node preamble _ Hty Hdec).
    cbv zeta.
    destruct (validate_updated_spec node preamble) as [_ ->].
    rewrite Hstatus, Hupdated.
    repeat match goal with
           | |- context [count msg_updated (messages ?check)] =>
               let H := fresh in
               assert (H : count msg_updated (messages check) = 0)
                 by other_check Hok;
               rewrite H; clear H
           end.
    reflexivity.
  - rewrite (@yaml_count YAML_parse now node preamble _ Hty Hdec).
    cbv zeta.
    assert (Hs : messages (validate_status node preamble) = [msg_status]).
    { unfold validate_status. now rewrite Hstatus. }
    rewrite Hs.
    repeat match goal with
           | |- context [count msg_status (messages ?check)] =>
               let H := fresh in
               assert (H : count msg_status (messages check) = 0)
                 by other_check Hok;
               rewrite H; clear H
           end.
    reflexivity.
Qed.

Lemma living_without_updated_reported_witness :
  let msgs := messages (yaml (parse_to (VObject living_props)) sample_now
                          (yaml_node living_text)) in
  count msg_updated msgs = 1 /\ count msg_status msgs = 1 /\
  has STATUES (str "living") = false /\ has STATUES (str "Living") = true.
Proof.
  apply (@living_without_updated_reported
           (parse_to (VObject living_props)) sample_now
           (yaml_node living_text) (VObject living_props)).
  - reflexivity.
  - split; reflexivity.
  - reflexivity.
  - reflexivity.
Defined.

(** ** Malformed authors *)

Lemma lookup_Some_In props key v :
  lookup props key = Some v -> In key (map fst props).
Proof.
  induction props as [|[k w] props IH]; simpl; [discriminate|].
  destruct (jsstring_eqb key k) eqn:E.
  - apply jsstring_eqb_eq in E. now left.
  - intros H. right. now apply IH.
Qed.

Lemma get_in_value p key v :
  outcome (assertIsPreamble p) = inr tt ->
  get p key = Some v -> in_value key p = true.
Proof.
  intros Hok Hget.
  destruct (assertIsPreamble_shape _ Hok) as [[props ->]|[items ->]];
    unfold get in Hget; apply lookup_Some_In in Hget.
  - cbn [in_value]. apply orb_true_iff. left. now apply has_In.
  - cbn [in_value]. unfold in_array. rewrite !orb_true_iff. do 3 left.
    apply has_In. simpl in Hget.
    apply in_map_iff in Hget as [[k w] [<- Hin]].
    now apply in_combine_l in Hin.
Qed.

(** The loop stops at the first author that does not match: what follows
    it has no effect. *)
Lemma author_loop_break node before author after hasGithub :
  forallb author_matches before = true ->
  author_matches author = false ->
  author_loop node (before ++ author :: after) hasGithub
  = ([mkDiagnostic msg_author_malformed node], inr true).
Proof.
  intros Hb Ha. rewrite author_loop_spec, forallb_app. simpl.
  now rewrite Hb, Ha.
Qed.

(** C7: when the author header of a decoded preamble holds, among its
    comma-separated and trimmed strings, a first one that does not match
    the author pattern, the malformed-author diagnostic is reported once,
    and the loop ends there: the strings after it play no part in its
    result. *)
Theorem malformed_author_reported_once YAML_parse now node preamble s
    before author after :
  type node = str "yaml" -> decoded YAML_parse node preamble ->
  get preamble (str "author") = Some (VString s) ->
  split 44 s = before ++ author :: after ->
  forallb author_matches before = true ->
  author_matches author = false ->
  count msg_author_malformed (messages (yaml YAML_parse now node)) = 1 /\
  author_loop node (split 44 s) false
  = ([mkDiagnostic msg_author_malformed node], inr true) /\
  forall others,
    author_loop node (before ++ author :: others) false
    = author_loop node (split 44 s) false.
Proof.
  intros Hty Hdec Hget Hsplit Hb Ha. pose proof Hdec as [_ Hok].
  split; [|split].
  - rewrite (@yaml_count YAML_parse now node preamble _ Hty Hdec).
    cbv zeta.
    destruct (@validate_author_spec node preamble Hok) as [_ ->].
    rewrite Hget, (@get_in_value preamble _ _ Hok Hget), Hsplit, forallb_app.
    cbn [forallb]. rewrite Hb, Ha.
    repeat match goal with
           | |- context [count msg_author_malformed (messages ?check)] =>
               let H := fresh in
               assert (H : count msg_author_malformed (messages check) = 0)
                 by other_check Hok;
               rewrite H; clear H
           end.
    reflexivity.
  - rewrite Hsplit. now apply author_loop_break.
  - intros others. rewrite Hsplit.
    now rewrite !author_loop_break.
Qed.

Lemma malformed_author_reported_once_witness :
  count msg_author_malformed
    (messages (yaml (parse_to (VObject bad_author_props)) sample_now
                 (yaml_node bad_author_text))) = 1 /\
  author_loop (yaml_node bad_author_text)
    (split 44 (str "Jane Doe (@janedoe), ###bad###, ???")) false
  = ([mkDiagnostic msg_author_malformed (yaml_node bad_author_text)],
     inr true) /\
  forall others,
    author_loop (yaml_node bad_author_text)
      ([str "Jane Doe (@janedoe)"] ++ str " ###bad###" :: others) false
    = author_loop (yaml_node bad_author_text)
        (split 44 (str "Jane Doe (@janedoe), ###bad###, ???")) false.
Proof.
  apply (@malformed_author_reported_once
           (parse_to (VObject bad_author_props)) sample_now
           (yaml_node bad_author_text) (VObject bad_author_props)
           (str "Jane Doe (@janedoe), ###bad###, ???")
           [str "Jane Doe (@janedoe)"] (str " ###bad###") [str " ???"]).
  - reflexivity.
  - split; reflexivity.
  - reflexivity.
  - reflexivity.
  - vm_compute. reflexivity.
  - vm_compute. reflexivity.
Defined.

(** ** Dates *)

(** A pattern that starts with [^] and has no [m] flag matches at index 0
    or nowhere. *)
Lemma exec_from_anchored input r n tries i :
  exec_from input false (Seq Bol r) n tries (S i) = None.
Proof.
  revert i; induction tries as [|tries IH]; intros i; simpl; auto.
Qed.

(** What [ISO8601] matches: ten code units, digits around two hyphens. *)
Lemma exec_ISO8601 s :
  exec ISO8601 s
  = match s with
    | [y1; y2; y3; y4; h1; m1; m2; h2; d1; d2] =>
        if is_digit y1 && is_digit y2 && is_digit y3 && is_digit y4
           && N.eqb h1 45
           && is_digit m1 && is_digit m2
           && N.eqb h2 45
           && is_digit d1 && is_digit d2
        then Some [Some s; Some [y1; y2; y3; y4]; Some [m1; m2]; Some [d1; d2]]
        else None
    | _ => None
    end.
Proof.
  unfold exec, ISO8601. cbn [source ngroups flag_m seq_of].
  destruct s as [|y1 [|y2 [|y3 [|y4 [|h1 [|m1 [|m2 [|h2 [|d1 [|d2 [|x rest]]]]]]]]]]];
    cbn [List.length exec_from];
    rewrite ?exec_from_anchored;
    cbn -[is_digit N.eqb];
    repeat match goal with
           | |- context [is_digit ?c] => destruct (is_digit c)
           | |- context [N.eqb ?c 45] => destruct (N.eqb c 45)
           end;
    reflexivity.
Qed.

Lemma isValidDate_string now s :
  isValidDate now (Some (VString s))
  = ret match s with
        | [y1; y2; y3; y4; h1; m1; m2; h2; d1; d2] =>
            is_digit y1 && is_digit y2 && is_digit y3 && is_digit y4
            && N.eqb h1 45
            && is_digit m1 && is_digit m2
            && N.eqb h2 45
            && is_digit d1 && is_digit d2
            && ((Number_of_digits [y1; y2; y3; y4] <=? getFullYear now)%Z
                && (Number_of_digits [m1; m2] <=? getMonth now + 1)%Z
                && (Number_of_digits [d1; d2] <=? getDate now)%Z)
        | _ => false
        end.
Proof.
  unfold isValidDate, String_match. rewrite bind_ret, exec_ISO8601.
  destruct s as [|y1 [|y2 [|y3 [|y4 [|h1 [|m1 [|m2 [|h2 [|d1 [|d2 [|x rest]]]]]]]]]]];
    try reflexivity.
  destruct (is_digit y1 && is_digit y2 && is_digit y3 && is_digit y4
            && N.eqb h1 45 && is_digit m1 && is_digit m2 && N.eqb h2 45
            && is_digit d1 && is_digit d2); reflexivity.
Qed.

(** The shape the pattern asks for and the three comparisons, each on its
    own component. *)
Lemma isValidDate_accepts now s :
  isValidDate now (Some (VString s)) = ret true <->
  exists year month day,
    s = year ++ str "-" ++ month ++ str "-" ++ day /\
    List.length year = 4 /\ List.length month = 2 /\ List.length day = 2 /\
    forallb is_digit year = true /\ forallb is_digit month = true /\
    forallb is_digit day = true /\
    (Number_of_digits year <= getFullYear now)%Z /\
    (Number_of_digits month <= getMonth now + 1)%Z /\
    (Number_of_digits day <= getDate now)%Z.
Proof.
  rewrite isValidDate_string. split.
  - destruct s as [|y1 [|y2 [|y3 [|y4 [|h1 [|m1 [|m2 [|h2 [|d1 [|d2 [|x rest]]]]]]]]]]];
      try discriminate.
    intros H. injection H as H.
    rewrite !andb_true_iff in H.
    repeat match goal with
           | E : _ /\ _ |- _ => destruct E
           end.
    repeat match goal with
           | E : N.eqb _ _ = true |- _ => apply N.eqb_eq in E; subst
           | E : (_ <=? _)%Z = true |- _ => apply Z.leb_le in E
           end.
    exists [y1; y2; y3; y4], [m1; m2], [d1; d2].
    cbn [forallb List.length].
    repeat match goal with
           | E : is_digit _ = true |- _ => rewrite E; clear E
           end.
    repeat split; try reflexivity; assumption.
  - intros (year & month & day & -> & Hy & Hm & Hd & Dy & Dm & Dd & Ly & Lm & Ld).
    destruct year as [|y1 [|y2 [|y3 [|y4 [|]]]]]; try discriminate.
    destruct month as [|m1 [|m2 [|]]]; try discriminate.
    destruct day as [|d1 [|d2 [|]]]; try discriminate.
    cbn [forallb] in Dy, Dm, Dd.
    rewrite !andb_true_iff in Dy. rewrite !andb_true_iff in Dm.
    rewrite !andb_true_iff in Dd.
    destruct Dy as (Dy1 & Dy2 & Dy3 & Dy4 & _), Dm as (Dm1 & Dm2 & _),
             Dd as (Dd1 & Dd2 & _).
    apply Z.leb_le in Ly, Lm, Ld.
    change (str "-") with [45%N]. cbn [app].
    rewrite Dy1, Dy2, Dy3, Dy4, Dm1, Dm2, Dd1, Dd2, Ly, Lm, Ld.
    reflexivity.
Qed.

Lemma HEADER_DATES_NoDup : NoDup HEADER_DATES.
Proof.
  unfold HEADER_DATES.
  repeat (constructor;
          [ cbn [In]; intros H;
            repeat (destruct H as [H|H]; [vm_compute in H; discriminate|]);
            exact H | ]).
  constructor.
Qed.

Lemma isValidDate_decides now s :
  isValidDate now (Some (VString s)) = ret true \/
  isValidDate now (Some (VString s)) = ret false.
Proof.
  rewrite isValidDate_string.
  match goal with
  | |- ret ?b = _ \/ _ => destruct b; auto
  end.
Qed.

Lemma count_date YAML_parse now node preamble dateHeader :
  type node = str "yaml" -> decoded YAML_parse node preamble ->
  In dateHeader HEADER_DATES ->
  count (msg_date dateHeader) (messages (yaml YAML_parse now node))
  = if date_offends now preamble dateHeader then 1 else 0.
Proof.
  intros Hty Hdec Hh. pose proof Hdec as [_ Hok].
  rewrite (@yaml_count YAML_parse now node preamble _ Hty Hdec).
  cbv zeta.
  destruct (@validate_dates_spec now node preamble Hok) as [_ ->].
  rewrite (@count_map_filter msg_date _ HEADER_DATES dateHeader
             msg_date_inj HEADER_DATES_NoDup Hh).
  cbn [In HEADER_DATES] in Hh.
  destruct Hh as [<-|[<-|[]]];
    repeat match goal with
           | |- context [count ?msg (messages ?check)] =>
               let H := fresh in
               assert (H : count msg (messages check) = 0)
                 by other_check Hok;
               rewrite H; clear H
           end;
    now rewrite Nat.add_0_r.
Qed.

(** C5: [isValidDate] accepts a string exactly when it has the shape
    of four, two and two digits around two hyphens and its year, month and
    day are each at most the current year, month (counted from 1) and day
    of the month, compared one by one.  It always decides; [2024-13-01] is
    rejected, no month number reaching 13, and so is every string whose
    first four characters spell a later year.  In a decoded preamble each
    date header ([created], [updated]) that is present gets its diagnostic
    once when its value is rejected and not at all otherwise. *)
Theorem date_validity YAML_parse now node preamble dateHeader s :
  type node = str "yaml" -> decoded YAML_parse node preamble ->
  In dateHeader HEADER_DATES ->
  get preamble dateHeader = Some (VString s) ->
  (0 <= getMonth now <= 11)%Z ->
  (forall data,
     isValidDate now (Some (VString data)) = ret true <->
     exists year month day,
       data = year ++ str "-" ++ month ++ str "-" ++ day /\
       List.length year = 4 /\ List.length month = 2 /\
       List.length day = 2 /\
       forallb is_digit year = true /\ forallb is_digit month = true /\
       forallb is_digit day = true /\
       (Number_of_digits year <= getFullYear now)%Z /\
       (Number_of_digits month <= getMonth now + 1)%Z /\
       (Number_of_digits day <= getDate now)%Z) /\
  (forall data,
     isValidDate now (Some (VString data)) = ret true \/
     isValidDate now (Some (VString data)) = ret false) /\
  isValidDate now (Some (VString (str "2024-13-01"))) = ret false /\
  (forall year rest,
     List.length year = 4 ->
     (getFullYear now < Number_of_digits year)%Z ->
     isValidDate now (Some (VString (year ++ rest))) = ret false) /\
  count (msg_date dateHeader) (messages (yaml YAML_parse now node))
  = (if date_offends now preamble dateHeader then 1 else 0) /\
  (date_offends now preamble dateHeader = true <->
   isValidDate now (Some (VString s)) = ret false).
Proof.
  intros Hty Hdec Hh Hget Hmonth. pose proof Hdec as [_ Hok].
  split; [intros; apply isValidDate_accepts|].
  split; [intros; apply isValidDate_decides|].
  split; [|split; [|split]].
  - rewrite isValidDate_string.
    change (str "2024-13-01") with [50; 48; 50; 52; 45; 49; 51; 45; 48; 49]%N.
    cbv beta iota.
    assert (E : (Number_of_digits [49; 51]%N <=? getMonth now + 1)%Z = false).
    { apply Z.leb_gt. change (Number_of_digits [49; 51]%N) with 13%Z. lia. }
    rewrite E, andb_false_r. cbn [andb]. now rewrite andb_false_r.
  - intros year rest Hlen Hlater.
    destruct (isValidDate_decides now (year ++ rest)) as [H|H]; [|exact H].
    apply isValidDate_accepts in H
      as (y & m & d & Hs & Hy & _ & _ & _ & _ & _ & Hle & _).
    assert (year = y).
    { destruct year as [|a1 [|a2 [|a3 [|a4 [|]]]]]; try discriminate.
      destruct y as [|b1 [|b2 [|b3 [|b4 [|]]]]]; try discriminate.
      now injection Hs as -> -> -> -> _. }
    subst y. lia.
  - apply count_date; assumption.
  - unfold date_offends.
    rewrite Hget, (@get_in_value preamble _ _ Hok Hget).
    destruct (isValidDate_decides now s) as [H|H]; rewrite H;
      unfold ret, outcome; simpl; split; intros; congruence.
Qed.

Lemma date_validity_witness :
  let msgs := messages (yaml (parse_to (VObject thirteenth_month_props))
                          sample_now (yaml_node thirteenth_month_text)) in
  isValidDate sample_now (Some (VString (str "2024-13-01"))) = ret false /\
  count (msg_date (str "created")) msgs = 1.
Proof.
  destruct (@date_validity
              (parse_to (VObject thirteenth_month_props)) sample_now
              (yaml_node thirteenth_month_text)
              (VObject thirteenth_month_props)
              (str "created") (str "2024-13-01"))
    as (_ & _ & Hinvalid & _ & Hcount & _).
  - reflexivity.
  - split; reflexivity.
  - vm_compute. tauto.
  - reflexivity.
  - vm_compute. split; discriminate.
  - split; [exact Hinvalid | exact Hcount].
Defined.

(** * Further properties of the rule *)

(** ** The report of a decoded block, check by check *)

Lemma validate_status_messages node preamble :
  messages (validate_status node preamble)
  = if not_listed STATUES (get preamble (str "status")) then [msg_status]
    else [].
Proof.
  unfold validate_status, not_listed.
  destruct (get preamble (str "status")) as [status|]; [|reflexivity].
  now destruct (has_value STATUES status).
Qed.

Lemma validate_category_messages node preamble :
  messages (validate_category node preamble)
  = if not_listed CATEGORIES (get preamble (str "category"))
    then [msg_category] else [].
Proof.
  unfold validate_category, not_listed.
  destruct (get preamble (str "category")) as [category|]; [|reflexivity].
  now destruct (has_value CATEGORIES category).
Qed.

Lemma validate_author_messages node preamble :
  outcome (assertIsPreamble preamble) = inr tt ->
  messages (validate_author node preamble)
  = if author_offends preamble then [msg_author_malformed] else [].
Proof.
  intros Hok.
  destruct (@validate_author_spec node preamble Hok) as [_ ->].
  unfold author_offends.
  destruct (get preamble (str "author")) as [[| | |s| |]|] eqn:Hget;
    try reflexivity.
  now rewrite (@get_in_value preamble _ _ Hok Hget).
Qed.

Lemma filter_ext_has (keys : list jsstring) (l : list jsstring) :
  filter (fun required => negb (has (Set_of keys) required)) l
  = filter (fun required => negb (has keys required)) l.
Proof.
  apply filter_ext. intros a. now rewrite Set_of_has.
Qed.

Lemma visit_messages YAML_parse now node preamble :
  type node = str "yaml" -> decoded YAML_parse node preamble ->
  messages (yaml YAML_parse now node)
  = map msg_required
        (filter (fun required => negb (has (Object_keys preamble) required))
                HEADER_REQUIRED)
    ++ map msg_unknown
         (filter (fun header => negb (has HEADER_ALL header))
                 (Set_of (Object_keys preamble)))
    ++ map msg_date (filter (date_offends now preamble) HEADER_DATES)
    ++ (if not_listed STATUES (get preamble (str "status"))
        then [msg_status] else [])
    ++ (if living_without_updated preamble then [msg_updated] else [])
    ++ (if not_listed CATEGORIES (get preamble (str "category"))
        then [msg_category] else [])
    ++ (if author_offends preamble then [msg_author_malformed] else []).
Proof.
  intros Hty Hdec. pose proof Hdec as [_ Hok].
  destruct (@yaml_decoded YAML_parse now node preamble Hty Hdec) as [_ ->].
  destruct (validate_required_spec node (Set_of (Object_keys preamble)))
    as [_ ->].
  destruct (validate_known_spec node (Set_of (Object_keys preamble)))
    as [_ ->].
  destruct (@validate_dates_spec now node preamble Hok) as [_ ->].
  destruct (validate_updated_spec node preamble) as [_ ->].
  rewrite validate_status_messages, validate_category_messages,
    (@validate_author_messages node preamble Hok), filter_ext_has.
  reflexivity.
Qed.


(** X1: the messages of a decoded block, in the order they are reported:
    the missing required headers in the order of [HEADER_REQUIRED], the
    unknown headers in the order of the keys, the rejected date headers
    ([created] before [updated]), then at most one message each for the
    status, for [updated], for the category and for the author. *)
Theorem decoded_block_messages YAML_parse now node preamble :
  type node = str "yaml" -> decoded YAML_parse node preamble ->
  messages (yaml YAML_parse now node)
  = map msg_required
        (filter (fun required => negb (has (Object_keys preamble) required))
                HEADER_REQUIRED)
    ++ map msg_unknown
         (filter (fun header => negb (has HEADER_ALL header))
                 (Set_of (Object_keys preamble)))
    ++ map msg_date (filter (date_offends now preamble) HEADER_DATES)
    ++ (if not_listed STATUES (get preamble (str "status"))
        then [msg_status] else [])
    ++ (if living_without_updated preamble then [msg_updated] else [])
    ++ (if not_listed CATEGORIES (get preamble (str "category"))
        then [msg_category] else [])
    ++ (if author_offends preamble then [msg_author_malformed] else []).
Proof. exact (@visit_messages YAML_parse now node preamble). Qed.

Lemma decoded_block_messages_witness :
  messages (yaml (parse_to (VObject partial_props)) sample_now
              (yaml_node partial_text))
  = [ msg_required (str "title"); msg_required (str "status");
      msg_required (str "category"); msg_required (str "author");
      msg_required (str "created"); msg_unknown (str "extra") ].
Proof.
  rewrite (@decoded_block_messages
             (parse_to (VObject partial_props)) sample_now
             (yaml_node partial_text) (VObject partial_props)).
  - vm_compute. reflexivity.
  - reflexivity.
  - split; reflexivity.
Defined.

(** ** Blocks without diagnostics *)

Lemma keys_get preamble key :
  In key (Object_keys preamble) -> exists v, get preamble key = Some v.
Proof.
  intros H. destruct (lookup_In _ _ H) as [k [v [_ [_ Hl]]]]. now exists v.
Qed.

Lemma map_filter_nil (g : jsstring -> jsstring) (cond : jsstring -> bool)
    (l : list jsstring) :
  map g (filter cond l) = [] <-> forall x, In x l -> cond x = false.
Proof.
  induction l as [|a l IH]; simpl.
  - split; [intros _ x [] | reflexivity].
  - destruct (cond a) eqn:E; simpl.
    + split; [discriminate|]. intros H. specialize (H a (or_introl eq_refl)).
      congruence.
    + rewrite IH. split.
      * intros H x [<-|Hx]; auto.
      * intros H x Hx. apply H. now right.
Qed.

Lemma app_nil_iff {A : Type} (l l' : list A) :
  l ++ l' = [] <-> l = [] /\ l' = [].
Proof.
  split; [apply app_eq_nil|]. now intros [-> ->].
Qed.

Lemma if_singleton_nil (b : bool) (msg : jsstring) :
  (if b then [msg] else []) = [] <-> b = false.
Proof. destruct b; split; congruence. Qed.

Lemma has_value_listed set v :
  has_value set v = true <-> exists s, v = VString s /\ In s set.
Proof.
  split.
  - destruct v; try discriminate. intros H. apply has_In in H. eauto.
  - intros [s [-> H]]. now apply has_In.
Qed.

(** X2: a decoded block is reported clean exactly when its preamble is
    well formed in the sense of the field checks.  Neither the order of the
    headers in the text nor a handle among the authors is part of it. *)
Theorem no_diagnostics_iff_well_formed YAML_parse now node preamble :
  type node = str "yaml" -> decoded YAML_parse node preamble ->
  (messages (yaml YAML_parse now node) = [] <-> well_formed now preamble).
Proof.
  intros Hty Hdec. pose proof Hdec as [_ Hok].
  rewrite (@visit_messages YAML_parse now node preamble Hty Hdec).
  unfold well_formed.
  rewrite !app_nil_iff, !map_filter_nil, !if_singleton_nil.
  split.
  - intros (Hreq & Hknown & Hdates & Hstatus & _ & Hcategory & Hauthor).
    assert (Hpresent : forall required, In required HEADER_REQUIRED ->
                         In required (Object_keys preamble)).
    { intros required Hr. specialize (Hreq required Hr).
      apply negb_false_iff, has_In in Hreq. exact Hreq. }
    split; [exact Hpresent|].
    split.
    { intros header Hh. apply has_In. apply negb_false_iff.
      apply Hknown. apply has_In. rewrite Set_of_has. now apply has_In. }
    split.
    { intros dateHeader s Hd Hget. specialize (Hdates dateHeader Hd).
      unfold date_offends in Hdates.
      rewrite Hget, (@get_in_value preamble _ _ Hok Hget) in Hdates.
      destruct (isValidDate_decides now s) as [H|H]; [exact H|].
      rewrite H in Hdates. discriminate. }
    split.
    { destruct (@keys_get preamble (str "status")) as [v Hv].
      { apply Hpresent. vm_compute. tauto. }
      unfold not_listed in Hstatus. rewrite Hv in Hstatus.
      apply negb_false_iff, has_value_listed in Hstatus as [s [-> Hs]].
      eauto. }
    split.
    { destruct (@keys_get preamble (str "category")) as [v Hv].
      { apply Hpresent. vm_compute. tauto. }
      unfold not_listed in Hcategory. rewrite Hv in Hcategory.
      apply negb_false_iff, has_value_listed in Hcategory as [s [-> Hs]].
      eauto. }
    destruct (@keys_get preamble (str "author")) as [v Hv].
    { apply Hpresent. vm_compute. tauto. }
    destruct (@decoded_string preamble (str "author") Hok) as [s Hs].
    { now left. }
    { exact (@get_in_value preamble _ _ Hok Hv). }
    exists s. split; [exact Hs|].
    unfold author_offends in Hauthor. rewrite Hs in Hauthor.
    apply negb_false_iff in Hauthor.
    now apply forallb_forall.
  - intros (Hreq & Hknown & Hdates & (st & Hst & Hstl) & (ca & Hca & Hcal)
            & (au & Hau & Haul)).
    split.
    { intros required Hr. apply negb_false_iff, has_In. auto. }
    split.
    { intros header Hh. apply negb_false_iff, has_In. apply Hknown.
      apply has_In. rewrite <- Set_of_has. now apply has_In. }
    split.
    { intros dateHeader Hd. unfold date_offends.
      destruct (in_value dateHeader preamble) eqn:Hin; [|reflexivity].
      destruct (@decoded_string preamble dateHeader Hok) as [s Hs];
        [now right | exact Hin |].
      rewrite Hs, (Hdates dateHeader s Hd Hs). reflexivity. }
    split.
    { unfold not_listed. rewrite Hst. apply negb_false_iff.
      apply has_value_listed. eauto. }
    split.
    { unfold living_without_updated. rewrite Hst. simpl.
      destruct (jsstring_eqb st (str "living")) eqn:E; [|reflexivity].
      apply jsstring_eqb_eq in E. subst st.
      apply has_In in Hstl. vm_compute in Hstl. discriminate. }
    split.
    { unfold not_listed. rewrite Hca. apply negb_false_iff.
      apply has_value_listed. eauto. }
    unfold author_offends. rewrite Hau. apply negb_false_iff.
    now apply forallb_forall.
Qed.

Lemma no_diagnostics_iff_well_formed_witness :
  well_formed sample_now (VObject sample_props).
Proof.
  apply (@no_diagnostics_iff_well_formed
           (parse_to (VObject sample_props)) sample_now
           (yaml_node sample_text) (VObject sample_props)).
  - reflexivity.
  - split; reflexivity.
  - vm_compute. reflexivity.
Defined.

(** ** The loader *)

Lemma Map_get_has header declared :
  Map_get HEADER_TYPES header = Some declared ->
  has (map fst HEADER_TYPES) header = true.
Proof.
  unfold HEADER_TYPES. simpl. intros Hget.
  repeat match type of Hget with
         | (if ?b then _ else _) = _ => destruct b; [reflexivity|]
         end.
  discriminate.
Qed.

Lemma has_Map_get header :
  has (map fst HEADER_TYPES) header = true ->
  exists declared, Map_get HEADER_TYPES header = Some declared.
Proof.
  unfold HEADER_TYPES. simpl. intros Hhas.
  repeat match goal with
         | |- context [if ?b then _ else _] => destruct b; [eauto|]
         end.
  discriminate.
Qed.

(** X3: [assertIsPreamble] returns normally exactly for the objects and
    arrays in which every property named in [HEADER_TYPES] has a value of
    the type declared there; properties under other names, [category]
    among them, are not looked at. *)
Theorem assertIsPreamble_accepts preamble :
  outcome (assertIsPreamble preamble) = inr tt <->
  ((exists props, preamble = VObject props) \/
   (exists items, preamble = VArray items)) /\
  forall header v declared,
    In (header, v) (Object_entries preamble) ->
    Map_get HEADER_TYPES header = Some declared ->
    typeof v = declared.
Proof.
  split.
  - intros Hok. split; [now apply assertIsPreamble_shape|].
    intros header v declared Hin Hget.
    pose proof (@assertIsPreamble_entry preamble header v Hok Hin
                  (Map_get_has _ Hget)) as H.
    congruence.
  - intros [Hshape Htyped].
    assert (Hguard : negb (jsstring_eqb (typeof preamble) (str "object"))
                     || match preamble with VNull => true | _ => false end
                     = false).
    { destruct Hshape as [[props ->]|[items ->]]; reflexivity. }
    unfold assertIsPreamble. rewrite Hguard.
    apply forEach_ok. intros [header v] Hin.
    destruct (has (map fst HEADER_TYPES) header) eqn:Hhas; [|reflexivity].
    destruct (has_Map_get _ Hhas) as [declared Hget].
    rewrite Hget, (Htyped header v declared Hin Hget). simpl.
    now rewrite jsstring_eqb_refl.
Qed.




(** X5: a value of another type than declared under one of the headers of
    [HEADER_TYPES] ([sip], [title], [status], [author], [created],
    [updated]) makes the whole report the one loader diagnostic: no field
    check runs. *)
Theorem wrong_type_single_diagnostic YAML_parse now node props header v
    declared :
  type node = str "yaml" ->
  YAML_parse (value node) = Some (VObject props) ->
  In (header, v) props ->
  Map_get HEADER_TYPES header = Some declared ->
  typeof v <> declared ->
  yaml YAML_parse now node = ([mkDiagnostic msg_not_yaml node], inr tt).
Proof.
  intros Hty Hparse Hin Hget Hneq.
  apply yaml_rejected; [exact Hty|].
  exact (@wrong_type_rejected YAML_parse node props header v declared
           Hparse Hin Hget Hneq).
Qed.

Lemma wrong_type_single_diagnostic_witness :
  yaml (parse_to (VObject string_sip_props)) sample_now
       (yaml_node string_sip_text)
  = ([mkDiagnostic msg_not_yaml (yaml_node string_sip_text)], inr tt).
Proof.
  apply (@wrong_type_single_diagnostic
           (parse_to (VObject string_sip_props)) sample_now
           (yaml_node string_sip_text) string_sip_props
           (str "sip") (VString (str "one")) (str "number")).
  - reflexivity.
  - reflexivity.
  - vm_compute. tauto.
  - reflexivity.
  - vm_compute. discriminate.
Defined.

(** X6: a block that decodes to [null], a boolean, a number or a string
    gets the one loader diagnostic and nothing else. *)
Theorem scalar_single_diagnostic YAML_parse now node v :
  type node = str "yaml" ->
  YAML_parse (value node) = Some v ->
  (forall items, v <> VArray items) -> (forall props, v <> VObject props) ->
  yaml YAML_parse now node = ([mkDiagnostic msg_not_yaml node], inr tt).
Proof.
  intros Hty Hparse Ha Ho.
  apply yaml_rejected; [exact Hty|].
  exact (@scalar_rejected YAML_parse node v Hparse Ha Ho).
Qed.

Lemma scalar_single_diagnostic_witness :
  yaml (parse_to VNull) sample_now (yaml_node [])
  = ([mkDiagnostic msg_not_yaml (yaml_node [])], inr tt).
Proof.
  apply (@scalar_single_diagnostic (parse_to VNull) sample_now
           (yaml_node []) VNull).
  - reflexivity.
  - reflexivity.
  - discriminate.
  - discriminate.
Defined.

(** ** How often each field diagnostic is reported *)

(** Rewrites to 0 the counts of [msg] in the checks that do not report
    it. *)
Ltac count_others msg Hok :=
  repeat match goal with
         | |- context [count msg (messages ?check)] =>
             let H := fresh in
             assert (H : count msg (messages check) = 0)
               by other_check Hok;
             rewrite H; clear H
         end.

Lemma count_singleton (b : bool) (msg : jsstring) :
  count msg (if b then [msg] else []) = if b then 1 else 0.
Proof.
  destruct b; [|reflexivity]. unfold count. simpl.
  now destruct (jsstring_eq_dec msg msg).
Qed.

Lemma msg_unknown_inj a b : msg_unknown a = msg_unknown b -> a = b.
Proof.
  unfold msg_unknown. intros H. apply app_inv_head in H.
  now apply quoted_inj in H.
Qed.

Lemma Set_of_In keys key : In key (Set_of keys) <-> In key keys.
Proof. now rewrite <- !has_In, Set_of_has. Qed.

Lemma Set_of_NoDup keys : NoDup (Set_of keys).
Proof.
  induction keys as [|k keys IH]; simpl; constructor.
  - intros H. apply filter_In in H as [_ H].
    now rewrite jsstring_eqb_refl in H.
  - now apply NoDup_filter.
Qed.

(** X7: in a decoded block a key of the preamble that is neither a
    required nor an optional header gets its unknown-header diagnostic
    once, and no other name gets one. *)
Theorem unknown_header_reported_once YAML_parse now node preamble header :
  type node = str "yaml" -> decoded YAML_parse node preamble ->
  count (msg_unknown header) (messages (yaml YAML_parse now node))
  = if has (Object_keys preamble) header && negb (has HEADER_ALL header)
    then 1 else 0.
Proof.
  intros Hty Hdec. pose proof Hdec as [_ Hok].
  rewrite (@yaml_count YAML_parse now node preamble _ Hty Hdec).
  cbv zeta.
  destruct (validate_known_spec node (Set_of (Object_keys preamble)))
    as [_ ->].
  count_others (msg_unknown header) Hok.
  rewrite Nat.add_0_l, Nat.add_0_r.
  destruct (has (Object_keys preamble) header) eqn:Hkey.
  - apply has_In in Hkey. apply Set_of_In in Hkey.
    now rewrite (@count_map_filter msg_unknown _ _ header msg_unknown_inj
                   (Set_of_NoDup (Object_keys preamble)) Hkey).
  - apply count_absent. intros H.
    apply in_map_iff in H as [h [Hh Hin]]. apply msg_unknown_inj in Hh.
    subst h. apply filter_In in Hin as [Hin _].
    apply has_In in Hin. rewrite Set_of_has in Hin. congruence.
Qed.

Lemma unknown_header_reported_once_witness :
  count (msg_unknown (str "extra"))
        (messages (yaml (parse_to (VObject partial_props)) sample_now
                     (yaml_node partial_text))) = 1.
Proof.
  rewrite (@unknown_header_reported_once
             (parse_to (VObject partial_props)) sample_now
             (yaml_node partial_text) (VObject partial_props) (str "extra")).
  - reflexivity.
  - reflexivity.
  - split; reflexivity.
Defined.

Lemma status_count_formula YAML_parse now node preamble :
  type node = str "yaml" -> decoded YAML_parse node preamble ->
  count msg_status (messages (yaml YAML_parse now node))
  = if not_listed STATUES (get preamble (str "status")) then 1 else 0.
Proof.
  intros Hty Hdec. pose proof Hdec as [_ Hok].
  rewrite (@yaml_count YAML_parse now node preamble _ Hty Hdec).
  cbv zeta. rewrite validate_status_messages.
  count_others msg_status Hok.
  rewrite count_singleton. simpl. now rewrite Nat.add_0_r.
Qed.

(** X8: in a decoded block the status diagnostic is reported once when
    the status is present and is not one of [Draft], [Review], [Final],
    [Withdrawn], [Living], letter for letter, and not at all otherwise. *)
Theorem status_reported_iff_not_listed YAML_parse now node preamble :
  type node = str "yaml" -> decoded YAML_parse node preamble ->
  count msg_status (messages (yaml YAML_parse now node))
  = if not_listed STATUES (get preamble (str "status")) then 1 else 0.
Proof.
  exact (@status_count_formula YAML_parse now node preamble).
Qed.

Lemma status_reported_iff_not_listed_witness :
  count msg_status
        (messages (yaml (parse_to (VObject lowercase_status_props)) sample_now
                     (yaml_node lowercase_status_text))) = 1.
Proof.
  rewrite (@status_reported_iff_not_listed
             (parse_to (VObject lowercase_status_props)) sample_now
             (yaml_node lowercase_status_text)
             (VObject lowercase_status_props)).
  - reflexivity.
  - reflexivity.
  - split; reflexivity.
Defined.

(** X9: in a decoded block the category diagnostic is reported once when
    the category is present and is not one of the strings [Core],
    [Blockchain], [Meta], which covers a category that is no string at
    all, and not at all otherwise. *)
Theorem category_reported_iff_not_listed YAML_parse now node preamble :
  type node = str "yaml" -> decoded YAML_parse node preamble ->
  count msg_category (messages (yaml YAML_parse now node))
  = if not_listed CATEGORIES (get preamble (str "category")) then 1 else 0.
Proof.
  intros Hty Hdec. pose proof Hdec as [_ Hok].
  rewrite (@yaml_count YAML_parse now node preamble _ Hty Hdec).
  cbv zeta. rewrite validate_category_messages.
  count_others msg_category Hok.
  rewrite count_singleton. simpl. now rewrite Nat.add_0_r.
Qed.

Lemma category_reported_iff_not_listed_witness :
  count msg_category
        (messages (yaml (parse_to (VObject numeric_category_props)) sample_now
                     (yaml_node numeric_category_text))) = 1.
Proof.
  rewrite (@category_reported_iff_not_listed
             (parse_to (VObject numeric_category_props)) sample_now
             (yaml_node numeric_category_text)
             (VObject numeric_category_props)).
  - reflexivity.
  - reflexivity.
  - split; reflexivity.
Defined.

Lemma count_updated YAML_parse now node preamble :
  type node = str "yaml" -> decoded YAML_parse node preamble ->
  count msg_updated (messages (yaml YAML_parse now node))
  = if living_without_updated preamble then 1 else 0.
Proof.
  intros Hty Hdec. pose proof Hdec as [_ Hok].
  rewrite (@yaml_count YAML_parse now node preamble _ Hty Hdec).
  cbv zeta.
  destruct (validate_updated_spec node preamble) as [_ ->].
  fold (living_without_updated preamble).
  count_others msg_updated Hok.
  rewrite count_singleton. simpl. now rewrite Nat.add_0_r.
Qed.

(** X10: the diagnostic about a living proposal without [updated] is only
    ever reported together with the status diagnostic: its condition asks
    for the status [living], which the status vocabulary does not hold. *)
Theorem updated_diagnostic_implies_status_diagnostic YAML_parse now node :
  In msg_updated (messages (yaml YAML_parse now node)) ->
  In msg_status (messages (yaml YAML_parse now node)).
Proof.
  intros Hin.
  destruct (jsstring_eqb (type node) (str "yaml")) eqn:Hty.
  2: { now rewrite (@yaml_wrong_type YAML_parse now node Hty) in Hin. }
  apply jsstring_eqb_eq in Hty.
  destruct (rejected_or_decoded YAML_parse node) as [Hrej|[preamble Hdec]].
  { rewrite (@yaml_rejected YAML_parse now node Hty Hrej) in Hin.
    destruct Hin as [H|[]]. vm_compute in H. discriminate. }
  assert (Hliving : living_without_updated preamble = true).
  { destruct (living_without_updated preamble) eqn:E; [reflexivity|].
    pose proof (@count_updated YAML_parse now node preamble Hty Hdec) as H.
    rewrite E in H. apply count_occ_not_In in H. contradiction. }
  unfold living_without_updated in Hliving.
  apply andb_true_iff in Hliving as [Hliving _].
  assert (Hcount : count msg_status (messages (yaml YAML_parse now node)) = 1).
  { rewrite (@status_count_formula YAML_parse now node preamble Hty Hdec).
    unfold not_listed, strict_equals in *.
    destruct (get preamble (str "status")) as [[| | |s| |]|];
      try discriminate.
    apply jsstring_eqb_eq in Hliving. now subst s. }
  apply (count_occ_In jsstring_eq_dec). unfold count in Hcount. lia.
Qed.

Lemma updated_diagnostic_implies_status_diagnostic_witness :
  In msg_status
     (messages (yaml (parse_to (VObject living_props)) sample_now
                  (yaml_node living_text))).
Proof.
  apply (@updated_diagnostic_implies_status_diagnostic
           (parse_to (VObject living_props)) sample_now
           (yaml_node living_text)).
  vm_compute. tauto.
Defined.

(** ** Where the diagnostics point *)

Lemma at_node_ret {A : Type} block (a : A) : at_node block (ret a).
Proof. constructor. Qed.

Lemma at_node_throw {A : Type} block e : at_node block (@throw A e).
Proof. constructor. Qed.

Lemma at_node_report block msg :
  at_node block (report (mkDiagnostic msg block)).
Proof. repeat constructor. Qed.

Lemma at_node_bind {A B : Type} block (m : Rule A) (f : A -> Rule B) :
  at_node block m -> (forall a, at_node block (f a)) ->
  at_node block (bind m f).
Proof.
  unfold at_node, reports, bind. intros Hm Hf.
  destruct m as [log [e|a]]; [exact Hm|].
  specialize (Hf a). destruct (f a) as [log' r]. simpl in *.
  apply Forall_app. now split.
Qed.

Lemma at_node_try_catch {A : Type} block (m : Rule A) handler :
  at_node block m -> (forall e, at_node block (handler e)) ->
  at_node block (try_catch m handler).
Proof.
  unfold at_node, reports, try_catch. intros Hm Hh.
  destruct m as [log [e|a]]; [|exact Hm].
  specialize (Hh e). destruct (handler e) as [log' r]. simpl in *.
  apply Forall_app. now split.
Qed.

Lemma at_node_when block b (m : Rule unit) :
  at_node block m -> at_node block (when b m).
Proof. destruct b; [auto | intros _; apply at_node_ret]. Qed.

Lemma at_node_forEach {A : Type} block (l : list A) (f : A -> Rule unit) :
  (forall a, at_node block (f a)) -> at_node block (forEach l f).
Proof.
  intros Hf. induction l as [|a l IH]; simpl;
    [apply at_node_ret | apply at_node_bind; auto].
Qed.

Lemma at_node_silent {A : Type} block (m : Rule A) :
  reports m = [] -> at_node block m.
Proof. unfold at_node. intros ->. constructor. Qed.

Lemma at_node_author_loop block authors hasGithub :
  at_node block (author_loop block authors hasGithub).
Proof.
  revert hasGithub. induction authors as [|author authors IH];
    intros hasGithub; cbn [author_loop]; [apply at_node_ret|].
  destruct (exec AUTHOR (trim author)); [apply IH|].
  apply at_node_bind; [apply at_node_report | intros; apply at_node_ret].
Qed.

Lemma at_node_isValidDate block now data :
  at_node block (isValidDate now data).
Proof.
  apply at_node_silent. unfold isValidDate, String_match.
  destruct data as [[| | |s| |]|]; try reflexivity.
  rewrite bind_ret. destruct (exec ISO8601 s) as [result|]; [|reflexivity].
  destruct (group result 1), (group result 2), (group result 3);
    reflexivity.
Qed.

Lemma all_reports_at_node YAML_parse now block :
  at_node block (yaml YAML_parse now block).
Proof.
  unfold yaml.
  apply at_node_bind.
  { destruct (jsstring_eqb (type block) (str "yaml"));
      [apply at_node_ret | apply at_node_throw]. }
  intros _. apply at_node_bind.
  { unfold decode. apply at_node_try_catch.
    - apply at_node_bind.
      + destruct (YAML_parse (value block));
          [apply at_node_ret | apply at_node_throw].
      + intros v. apply at_node_bind; [|intros; apply at_node_ret].
        apply at_node_silent, assertIsPreamble_reports.
    - intros e. apply at_node_bind;
        [apply at_node_report | intros; apply at_node_ret]. }
  intros [preamble|]; [|apply at_node_ret].
  cbv zeta.
  apply at_node_bind; [|intros _].
  { apply at_node_forEach. intros required.
    apply at_node_when, at_node_report. }
  apply at_node_bind; [|intros _].
  { apply at_node_forEach. intros header.
    apply at_node_when, at_node_report. }
  apply at_node_bind; [|intros _].
  { rewrite validate_order_silent. apply at_node_ret. }
  apply at_node_bind; [|intros _].
  { apply at_node_forEach. intros dateHeader.
    destruct (in_value dateHeader preamble); [|apply at_node_ret].
    apply at_node_bind; [apply at_node_isValidDate|].
    intros valid. apply at_node_when, at_node_report. }
  apply at_node_bind; [|intros _].
  { unfold validate_status.
    destruct (get preamble (str "status"));
      [apply at_node_when, at_node_report | apply at_node_ret]. }
  apply at_node_bind; [|intros _].
  { apply at_node_when, at_node_report. }
  apply at_node_bind; [|intros _].
  { unfold validate_category.
    destruct (get preamble (str "category"));
      [apply at_node_when, at_node_report | apply at_node_ret]. }
  unfold validate_author.
  destruct (in_value (str "author") preamble); [|apply at_node_ret].
  apply at_node_bind.
  - unfold String_split.
    destruct (get preamble (str "author")) as [[| | |s| |]|];
      first [apply at_node_ret | apply at_node_throw].
  - intros authors. apply at_node_bind; [apply at_node_author_loop|].
    intros hasGithub. apply at_node_when, at_node_report.
Qed.

(** X12: every diagnostic the visitor reports is located at the node it
    was called on, whatever the block holds. *)
Theorem all_diagnostics_at_the_block YAML_parse now block :
  Forall (fun d => node d = block) (reports (yaml YAML_parse now block)).
Proof. exact (@all_reports_at_node YAML_parse now block). Qed.

(** ** Arrays *)

Lemma str_inj a b : str a = str b -> a = b.
Proof.
  unfold str. intros H.
  rewrite <- (string_of_list_ascii_of_string a),
    <- (string_of_list_ascii_of_string b).
  f_equal.
  revert H. generalize (list_ascii_of_string a) (list_ascii_of_string b).
  induction l as [|x l IH]; intros [|y l']; simpl; try discriminate;
    [reflexivity|].
  intros H. injection H as Hxy Hl. f_equal; [|now apply IH].
  now rewrite <- (ascii_N_embedding x), <- (ascii_N_embedding y), Hxy.
Qed.

(** Distinct indices have distinct keys. *)
Lemma index_key_inj i j : index_key i = index_key j -> i = j.
Proof.
  unfold index_key. intros H. apply str_inj in H.
  assert (Hu : Some (Nat.to_uint i) = Some (Nat.to_uint j)).
  { now rewrite <- !NilEmpty.usu, H. }
  injection Hu as Hu.
  now rewrite <- (Unsigned.of_to i), <- (Unsigned.of_to j), Hu.
Qed.

Lemma index_keys_NoDup n : NoDup (map index_key (seq 0 n)).
Proof.
  apply Injective_map_NoDup; [exact index_key_inj | apply seq_NoDup].
Qed.

Lemma map_fst_combine {A B : Type} (l : list A) (l' : list B) :
  List.length l = List.length l' -> map fst (combine l l') = l.
Proof.
  revert l'; induction l as [|a l IH]; intros [|b l']; simpl;
    try discriminate; [reflexivity|].
  intros H. injection H as H. now rewrite IH.
Qed.

Lemma array_keys items :
  Object_keys (VArray items) = map index_key (seq 0 (List.length items)).
Proof.
  unfold Object_keys. simpl. apply map_fst_combine.
  now rewrite length_map, length_seq.
Qed.

Lemma Set_of_NoDup_id keys : NoDup keys -> Set_of keys = keys.
Proof.
  induction 1 as [|k keys Hk Hnd IH]; simpl; [reflexivity|].
  rewrite IH. f_equal. apply forallb_filter_id. apply forallb_forall.
  intros k' Hin. apply negb_true_iff.
  destruct (jsstring_eqb k' k) eqn:E; [|reflexivity].
  apply jsstring_eqb_eq in E. subst k'. contradiction.
Qed.

(** A name with a character that is no digit is no own property of an
    array. *)
Lemma get_array_name items key :
  forallb is_digit key = false -> get (VArray items) key = None.
Proof.
  intros Hkey. destruct (get (VArray items) key) as [v|] eqn:E;
    [|reflexivity].
  unfold get in E. apply lookup_Some_In in E.
  fold (Object_keys (VArray items)) in E. rewrite array_keys in E.
  apply has_In in E. now rewrite (not_an_index _ _ Hkey) in E.
Qed.

Lemma array_accepted items : outcome (assertIsPreamble (VArray items)) = inr tt.
Proof.
  unfold assertIsPreamble. cbn [typeof]. rewrite jsstring_eqb_refl.
  cbn [negb orb].
  apply forEach_ok. intros [header v] Hin.
  assert (Hkey : In header (Object_keys (VArray items))).
  { unfold Object_keys. apply in_map_iff. now exists (header, v). }
  rewrite array_keys in Hkey. apply in_map_iff in Hkey as [i [<- _]].
  assert (Hhas : has (map fst HEADER_TYPES) (index_key i) = false).
  { apply has_not_In. intros H. pose proof (index_key_digits i) as Hd.
    cbn [map fst HEADER_TYPES In] in H.
    repeat (destruct H as [H|H]; [rewrite <- H in Hd; discriminate|]).
    contradiction. }
  now rewrite Hhas.
Qed.

(** A computation is told by its messages, once its diagnostics are
    known to point at one node. *)
Lemma at_node_messages {A : Type} block (m : Rule A) (a : A) :
  at_node block m -> outcome m = inr a ->
  m = (map (fun msg => mkDiagnostic msg block) (messages m), inr a).
Proof.
  unfold at_node, messages, outcome, reports.
  destruct m as [log r]. simpl. intros Hnode ->. f_equal.
  induction Hnode as [|[msg n] log Hn _ IH]; [reflexivity|].
  simpl in *. subst n. now f_equal.
Qed.

(** X11: every array passes the loader, and the field checks then report
    all six required headers as missing and each index of the array as an
    unknown header, and nothing else. *)
Theorem array_block_messages YAML_parse now node items :
  type node = str "yaml" ->
  YAML_parse (value node) = Some (VArray items) ->
  yaml YAML_parse now node
  = (map (fun msg => mkDiagnostic msg node)
         (map msg_required HEADER_REQUIRED
          ++ map msg_unknown (map index_key (seq 0 (List.length items)))),
     inr tt).
Proof.
  intros Hty Hparse.
  assert (Hdec : decoded YAML_parse node (VArray items))
    by (split; [exact Hparse | apply array_accepted]).
  pose proof Hdec as [_ Hok].
  assert (Hmsgs : messages (yaml YAML_parse now node)
                  = map msg_required HEADER_REQUIRED
                    ++ map msg_unknown
                         (map index_key (seq 0 (List.length items)))).
  { rewrite (@visit_messages YAML_parse now node (VArray items) Hty Hdec).
    rewrite array_keys, (Set_of_NoDup_id (index_keys_NoDup _)).
    assert (Hdates : filter (date_offends now (VArray items)) HEADER_DATES
                     = []).
    { unfold date_offends, HEADER_DATES. cbn [filter in_value].
      rewrite !in_array_name by reflexivity. reflexivity. }
    rewrite Hdates.
    unfold not_listed, living_without_updated, author_offends.
    rewrite !get_array_name by reflexivity. cbn [strict_equals andb map app].
    rewrite !app_nil_r. f_equal.
    - f_equal. apply forallb_filter_id. apply forallb_forall.
      intros required Hr. apply negb_true_iff, not_an_index.
      cbn [HEADER_REQUIRED In] in Hr.
      repeat (destruct Hr as [<-|Hr]; [reflexivity|]). contradiction.
    - f_equal. apply forallb_filter_id. apply forallb_forall.
      intros header Hh. apply in_map_iff in Hh as [i [<- _]].
      apply negb_true_iff, has_not_In. intros H.
      pose proof (index_key_digits i) as Hd.
      cbn [HEADER_ALL HEADER_REQUIRED HEADER_OPTIONAL app In] in H.
      repeat (destruct H as [H|H]; [rewrite <- H in Hd; discriminate|]).
      contradiction. }
  rewrite <- Hmsgs. apply at_node_messages.
  - apply all_reports_at_node.
  - now apply yaml_outcome.
Qed.

Lemma array_block_messages_witness :
  yaml (parse_to (VArray sequence_items)) sample_now (yaml_node sequence_text)
  = (map (fun msg => mkDiagnostic msg (yaml_node sequence_text))
         (map msg_required HEADER_REQUIRED
          ++ map msg_unknown (map index_key (seq 0 2))),
     inr tt).
Proof.
  apply (@array_block_messages
           (parse_to (VArray sequence_items)) sample_now
           (yaml_node sequence_text) sequence_items).
  - reflexivity.
  - reflexivity.
Defined.

(** ** Runs of characters under a quantifier *)

Lemma matcher_Chars input multiline p x c :
  matcher input multiline (Chars p) x c
  = match nth_error input (endIndex x) with
    | Some ch => if p ch then c (mkState (S (endIndex x)) (captures x))
                 else None
    | None => None
    end.
Proof. reflexivity. Qed.

(** A quantified character class takes a run of [k] characters of the
    class that ends at a character outside it, or at the end of the input,
    when the continuation accepts the state after the run. *)
Lemma repeat_chars_run input multiline p c :
  forall k fuel min e caps z,
    (forall j, j < k ->
       exists ch, nth_error input (e + j) = Some ch /\ p ch = true) ->
    match nth_error input (e + k) with
    | Some ch => p ch = false
    | None => True
    end ->
    min <= k -> k <= fuel ->
    c (mkState (e + k) caps) = Some z ->
    RepeatMatcher (matcher input multiline (Chars p)) [] c fuel min
      (mkState e caps) = Some z.
Proof.
  induction k as [|k IH]; intros fuel min e caps z Hrun Hstop Hmin Hfuel Hc.
  - assert (min = 0) by lia. subst min. rewrite Nat.add_0_r in *.
    destruct fuel as [|fuel]; [exact Hc|].
    cbn [RepeatMatcher Nat.eqb andb]. cbv zeta.
    change (clear_captures [] (mkState e caps)) with (mkState e caps).
    rewrite matcher_Chars. cbn [endIndex captures].
    destruct (nth_error input e) as [ch|]; [|exact Hc].
    now rewrite Hstop.
  - destruct fuel as [|fuel]; [lia|].
    cbn [RepeatMatcher]. cbv zeta.
    change (clear_captures [] (mkState e caps)) with (mkState e caps).
    rewrite !matcher_Chars. cbn [endIndex captures].
    destruct (Hrun 0) as [ch [Hch Hp]]; [lia|].
    rewrite Nat.add_0_r in Hch. rewrite Hch, Hp.
    replace (S e =? e) with false by (symmetry; apply Nat.eqb_neq; lia).
    rewrite andb_false_r.
    rewrite (IH fuel (pred min) (S e) caps z).
    + now destruct (min =? 0).
    + intros j Hj. destruct (Hrun (S j)) as [ch' H]; [lia|].
      exists ch'. now rewrite Nat.add_succ_comm.
    + now rewrite Nat.add_succ_comm.
    + lia.
    + lia.
    + now rewrite Nat.add_succ_comm.
Qed.

Lemma matcher_Chars_none input multiline p x c :
  nth_error input (endIndex x) = None ->
  matcher input multiline (Chars p) x c = None.
Proof. intros H. now rewrite matcher_Chars, H. Qed.

Lemma exec_from_first input multiline r ngroups tries i y :
  matcher input multiline r (mkState i (repeat None ngroups))
    (fun y => Some y) = Some y ->
  exec_from input multiline r ngroups tries i
  = Some (Some (substring i (endIndex y) input) :: captures y).
Proof. intros H. destruct tries; simpl; now rewrite H. Qed.

Lemma nth_error_end (input : jsstring) : nth_error input (List.length input) = None.
Proof. apply nth_error_None. lia. Qed.

(** A word character followed by characters of the display name, and
    nothing else, matches [AUTHOR] with both handle captures undefined. *)
Lemma AUTHOR_plain_name c0 rest :
  is_word c0 = true -> forallb is_name_char rest = true ->
  exec AUTHOR (c0 :: rest) = Some [Some (c0 :: rest); None; None].
Proof.
  intros Hc0 Hrest.
  set (input := c0 :: rest).
  assert (Hend : nth_error input (List.length input) = None)
    by apply nth_error_end.
  assert (Hmatch : matcher input false (source AUTHOR)
                     (mkState 0 [None; None]) (fun y => Some y)
                   = Some (mkState (List.length input) [None; None])).
  { unfold AUTHOR. cbn [source seq_of matcher at_line_start endIndex captures].
    change (nth_error input 0) with (Some c0). cbv beta iota. rewrite Hc0.
    unfold Star.
    match goal with
    | |- matcher input false (Quant ?r 0 None) ?x ?c = _ =>
        change (RepeatMatcher (matcher input false r) (groups r) c
                  (iterations input 0 None x) 0 x = Some (mkState (List.length input) [None; None]))
    end.
    cbn [groups iterations endIndex Nat.add].
    apply (@repeat_chars_run input false _ _ (List.length rest)).
    - intros j Hj. change (1 + j) with (S j). unfold input. cbn [nth_error].
      destruct (nth_error rest j) as [ch|] eqn:E.
      + exists ch. split; [reflexivity|].
        apply nth_error_In in E.
        exact (proj1 (forallb_forall is_name_char rest) Hrest ch E).
      + apply nth_error_None in E. lia.
    - change (1 + List.length rest) with (List.length input). now rewrite Hend.
    - lia.
    - unfold input. cbn [List.length]. lia.
    - change (1 + List.length rest) with (List.length input).
      unfold Opt. cbn [matcher iterations RepeatMatcher Nat.eqb andb HANDLE seq_of].
      unfold Chr.
      rewrite !(@matcher_Chars_none input) by exact Hend.
      cbn [endIndex]. unfold at_line_end. now rewrite Hend. }
  change (exec_from input false (source AUTHOR) 2 (List.length input) 0
          = Some [Some input; None; None]).
  rewrite (@exec_from_first input false (source AUTHOR) 2 (List.length input)
             0 _ Hmatch).
  cbn [endIndex captures].
  unfold substring. now rewrite Nat.sub_0_r, firstn_all.
Qed.

(** An empty string, or one that starts with another character than a
    word character, does not match [AUTHOR]. *)
Lemma AUTHOR_needs_word_start s :
  match s with
  | [] => True
  | c :: _ => is_word c = false
  end ->
  exec AUTHOR s = None.
Proof.
  destruct s as [|c rest]; intros Hc; [reflexivity|].
  unfold exec, AUTHOR.
  cbn [source ngroups flag_m seq_of List.length exec_from].
  rewrite exec_from_anchored.
  cbn [matcher at_line_start endIndex nth_error]. now rewrite Hc.
Qed.

(** ** Authors *)

Lemma count_author_malformed YAML_parse now node preamble :
  type node = str "yaml" -> decoded YAML_parse node preamble ->
  count msg_author_malformed (messages (yaml YAML_parse now node))
  = if author_offends preamble then 1 else 0.
Proof.
  intros Hty Hdec. pose proof Hdec as [_ Hok].
  rewrite (@yaml_count YAML_parse now node preamble _ Hty Hdec).
  cbv zeta. rewrite (@validate_author_messages node preamble Hok).
  count_others msg_author_malformed Hok.
  now rewrite count_singleton.
Qed.

(** X13: an author header one of whose comma-separated strings is empty
    once trimmed, or starts with another character than a letter, a digit
    or an underscore, gets the malformed-author diagnostic, once; so does
    an empty author header, and one that ends in a comma. *)
Theorem author_without_name_malformed YAML_parse now node preamble s author :
  type node = str "yaml" -> decoded YAML_parse node preamble ->
  get preamble (str "author") = Some (VString s) ->
  In author (split 44 s) ->
  match trim author with
  | [] => True
  | c :: _ => is_word c = false
  end ->
  count msg_author_malformed (messages (yaml YAML_parse now node)) = 1.
Proof.
  intros Hty Hdec Hget Hin Hstart.
  rewrite (@count_author_malformed YAML_parse now node preamble Hty Hdec).
  unfold author_offends. rewrite Hget.
  assert (Hno : author_matches author = false).
  { unfold author_matches. now rewrite (AUTHOR_needs_word_start _ Hstart). }
  assert (Hall : forallb author_matches (split 44 s) = false).
  { destruct (forallb author_matches (split 44 s)) eqn:E; [|reflexivity].
    rewrite forallb_forall in E. rewrite (E author Hin) in Hno.
    discriminate. }
  now rewrite Hall.
Qed.

Lemma author_without_name_malformed_witness :
  count msg_author_malformed
    (messages (yaml (parse_to (VObject trailing_comma_props)) sample_now
                 (yaml_node trailing_comma_text))) = 1.
Proof.
  apply (@author_without_name_malformed
           (parse_to (VObject trailing_comma_props)) sample_now
           (yaml_node trailing_comma_text) (VObject trailing_comma_props)
           (str "Jane Doe (@janedoe),") []).
  - reflexivity.
  - split; reflexivity.
  - reflexivity.
  - vm_compute. tauto.
  - exact I.
Defined.

(** X14: an author header that lists display names only, each a word
    character followed by word characters, dots and white space once
    trimmed, matches with both handle captures undefined for every name,
    and gets no malformed-author diagnostic. *)
Theorem plain_names_accepted YAML_parse now node preamble s :
  type node = str "yaml" -> decoded YAML_parse node preamble ->
  get preamble (str "author") = Some (VString s) ->
  (forall author, In author (split 44 s) ->
     exists c rest, trim author = c :: rest /\ is_word c = true /\
                    forallb is_name_char rest = true) ->
  (forall author, In author (split 44 s) ->
     exec AUTHOR (trim author) = Some [Some (trim author); None; None]) /\
  count msg_author_malformed (messages (yaml YAML_parse now node)) = 0.
Proof.
  intros Hty Hdec Hget Hnames.
  assert (Hexec : forall author, In author (split 44 s) ->
            exec AUTHOR (trim author)
            = Some [Some (trim author); None; None]).
  { intros author Hin. destruct (Hnames author Hin) as (c & rest & -> & Hc & Hr).
    now apply AUTHOR_plain_name. }
  split; [exact Hexec|].
  rewrite (@count_author_malformed YAML_parse now node preamble Hty Hdec).
  unfold author_offends. rewrite Hget.
  assert (Hall : forallb author_matches (split 44 s) = true).
  { apply forallb_forall. intros author Hin. unfold author_matches.
    now rewrite (Hexec author Hin). }
  now rewrite Hall.
Qed.

Lemma plain_names_accepted_witness :
  (forall author, In author (split 44 (str "Jane Doe, J. R. Roe")) ->
     exec AUTHOR (trim author) = Some [Some (trim author); None; None]) /\
  count msg_author_malformed
    (messages (yaml (parse_to (VObject plain_names_props)) sample_now
                 (yaml_node plain_names_text))) = 0.
Proof.
  apply (@plain_names_accepted
           (parse_to (VObject plain_names_props)) sample_now
           (yaml_node plain_names_text) (VObject plain_names_props)
           (str "Jane Doe, J. R. Roe")).
  - reflexivity.
  - split; reflexivity.
  - reflexivity.
  - intros author [<-|[<-|[]]].
    + exists 74%N, (str "ane Doe"). repeat split; reflexivity.
    + exists 74%N, (str ". R. Roe"). repeat split; reflexivity.
Defined.

(** ** The header the order check extracts *)

Lemma nth_error_app_at {A : Type} (l l' : list A) j :
  nth_error (l ++ l') (List.length l + j) = nth_error l' j.
Proof.
  rewrite nth_error_app2 by lia. f_equal. lia.
Qed.

Lemma nth_error_run (p : N -> bool) (run : jsstring) j :
  forallb p run = true -> j < List.length run ->
  exists ch, nth_error run j = Some ch /\ p ch = true.
Proof.
  intros Hall Hj. destruct (nth_error run j) as [ch|] eqn:E.
  - exists ch. split; [reflexivity|].
    apply nth_error_In in E.
    exact (proj1 (forallb_forall p run) Hall ch E).
  - apply nth_error_None in E. lia.
Qed.

(** X15: from a block that starts with a header line, a name of
    lowercase letters, a colon and at least one more character on the
    line, the order check extracts that name and no other: its array of
    ordered headers has this one element, however many header lines
    follow. *)
Theorem first_header_line_extracted name content rest :
  name <> [] -> forallb is_lower name = true ->
  content <> [] -> forallb is_dot content = true ->
  match rest with
  | [] => True
  | c :: _ => is_line_terminator c = true
  end ->
  orderedHeaders_of (name ++ str ":" ++ content ++ rest) = [Some name].
Proof.
  intros Hname Hlower Hcontent Hdot Hrest.
  assert (Hn : 1 <= List.length name)
    by (destruct name; [contradiction | simpl; lia]).
  assert (Hm : 1 <= List.length content)
    by (destruct content; [contradiction | simpl; lia]).
  set (input := name ++ str ":" ++ content ++ rest).
  set (n := List.length name) in *. set (m := List.length content) in *.
  assert (Hcolon : nth_error input n = Some 58%N).
  { unfold input, n. rewrite <- (Nat.add_0_r (List.length name)).
    now rewrite nth_error_app_at. }
  assert (Hafter : forall j, nth_error input (S n + j)
                             = nth_error (content ++ rest) j).
  { intros j. unfold input, n.
    replace (S (List.length name) + j) with (List.length name + S j) by lia.
    now rewrite nth_error_app_at. }
  assert (Hstop : match nth_error input (S n + m) with
                  | Some ch => is_dot ch = false
                  | None => True
                  end).
  { rewrite Hafter. unfold m.
    rewrite <- (Nat.add_0_r (List.length content)), nth_error_app_at.
    destruct rest as [|c rest']; [exact I|]. simpl.
    unfold is_dot. now rewrite Hrest. }
  assert (Hend : at_line_end input true (S n + m) = true).
  { unfold at_line_end. rewrite Hafter. unfold m.
    rewrite <- (Nat.add_0_r (List.length content)), nth_error_app_at.
    destruct rest as [|c rest']; [reflexivity|]. simpl. exact Hrest. }
  assert (Hmatch : matcher input true (source HEADERS_REGEX)
                     (mkState 0 [None]) (fun y => Some y)
                   = Some (mkState (S n + m) [Some name])).
  { unfold HEADERS_REGEX.
    cbn [source seq_of matcher at_line_start endIndex captures].
    unfold Plus at 1.
    match goal with
    | |- matcher input true (Quant ?r 1 None) ?x ?c = ?rhs =>
        change (RepeatMatcher (matcher input true r) (groups r) c
                  (iterations input 1 None x) 1 x = rhs)
    end.
    cbn [groups].
    apply (@repeat_chars_run input true _ _ n).
    - intros j Hj. cbn [Nat.add]. unfold input.
      rewrite nth_error_app1 by (fold n; lia).
      now apply nth_error_run.
    - cbn [Nat.add]. now rewrite Hcolon.
    - exact Hn.
    - cbn [iterations endIndex]. unfold input.
      rewrite length_app. fold n. lia.
    - cbn [Nat.add endIndex captures Nat.sub set_capture].
      unfold Chr at 1. rewrite matcher_Chars. cbn [endIndex captures].
      rewrite Hcolon. cbn [str map list_ascii_of_string].
      change (58 =? N_of_ascii ":")%N with true. cbv iota.
      assert (Hsub : substring 0 n input = name).
      { unfold substring, input, n. cbn [skipn]. rewrite Nat.sub_0_r.
        now rewrite firstn_app, Nat.sub_diag, firstn_all, firstn_O,
          app_nil_r. }
      rewrite Hsub. unfold Plus.
      match goal with
      | |- matcher input true (Quant ?r 1 None) ?x ?c = ?rhs =>
          change (RepeatMatcher (matcher input true r) (groups r) c
                    (iterations input 1 None x) 1 x = rhs)
      end.
      cbn [groups].
      apply (@repeat_chars_run input true _ _ m).
      + intros j Hj. rewrite Hafter, nth_error_app1 by (fold m; lia).
        now apply nth_error_run.
      + exact Hstop.
      + exact Hm.
      + cbn [iterations endIndex]. unfold input.
        rewrite !length_app. fold n m. cbn [List.length str map
          list_ascii_of_string]. lia.
      + cbn [endIndex]. now rewrite Hend. }
  unfold orderedHeaders_of.
  change (exec HEADERS_REGEX input)
    with (exec_from input true (source HEADERS_REGEX) 1 (List.length input) 0).
  rewrite (@exec_from_first input true (source HEADERS_REGEX) 1
             (List.length input) 0 _ Hmatch).
  reflexivity.
Qed.

Lemma first_header_line_extracted_witness :
  orderedHeaders_of
    (str "title" ++ str ":" ++ str " Sample" ++ lf ++ str "sip: 1")
  = [Some (str "title")].
Proof.
  apply (@first_header_line_extracted
           (str "title") (str " Sample") (lf ++ str "sip: 1")).
  - discriminate.
  - reflexivity.
  - discriminate.
  - reflexivity.
  - reflexivity.
Defined.

(** ** Dates of the past *)

(** X16: a date is rejected as soon as its month number is above the
    current month or its day number is above the current day of the month,
    whatever its year: dates of earlier years are not exempt. *)
Theorem later_month_or_day_rejected now year month day :
  List.length year = 4 -> List.length month = 2 -> List.length day = 2 ->
  (getMonth now + 1 < Number_of_digits month)%Z \/
  (getDate now < Number_of_digits day)%Z ->
  isValidDate now
    (Some (VString (year ++ str "-" ++ month ++ str "-" ++ day)))
  = ret false.
Proof.
  intros Hy Hm Hd Hlater.
  destruct (isValidDate_decides now
              (year ++ str "-" ++ month ++ str "-" ++ day)) as [H|H];
    [|exact H].
  apply isValidDate_accepts in H
    as (y & m & d & Hs & Hy' & Hm' & Hd' & _ & _ & _ & _ & Hlm & Hld).
  destruct year as [|a1 [|a2 [|a3 [|a4 [|]]]]]; try discriminate.
  destruct month as [|b1 [|b2 [|]]]; try discriminate.
  destruct day as [|c1 [|c2 [|]]]; try discriminate.
  destruct y as [|a1' [|a2' [|a3' [|a4' [|]]]]]; try discriminate.
  destruct m as [|b1' [|b2' [|]]]; try discriminate.
  destruct d as [|c1' [|c2' [|]]]; try discriminate.
  injection Hs as -> -> -> -> -> -> -> ->.
  destruct Hlater; lia.
Qed.

Lemma later_month_or_day_rejected_witness :
  isValidDate sample_now (Some (VString (str "2020" ++ str "-" ++ str "01"
                                          ++ str "-" ++ str "31")))
  = ret false.
Proof.
  apply (@later_month_or_day_rejected sample_now
           (str "2020") (str "01") (str "31")).
  - reflexivity.
  - reflexivity.
  - reflexivity.
  - right. vm_compute. reflexivity.
Defined.

(** ** The kind of the node *)

(** X17: the visitor returns normally exactly on a node of type [yaml];
    on a node of another type it throws the assertion error before
    anything is reported. *)
Theorem returns_iff_yaml_node YAML_parse now block :
  (outcome (yaml YAML_parse now block) = inr tt <-> type block = str "yaml")
  /\
  (type block <> str "yaml" ->
   yaml YAML_parse now block = ([], inl AssertionError)).
Proof.
  assert (Hwrong : type block <> str "yaml" ->
                   yaml YAML_parse now block = ([], inl AssertionError)).
  { intros Hty. apply yaml_wrong_type.
    destruct (jsstring_eqb (type block) (str "yaml")) eqn:E; [|reflexivity].
    apply jsstring_eqb_eq in E. contradiction. }
  split; [|exact Hwrong].
  split; [|apply yaml_outcome].
  intros Hout. destruct (jsstring_eq_dec (type block) (str "yaml")) as [E|E];
    [exact E|].
  rewrite (Hwrong E) in Hout. discriminate.
Qed.

(** ** White space around an author *)

Lemma drop_while_spaces pad s :
  forallb is_space pad = true ->
  drop_while is_space (pad ++ s) = drop_while is_space s.
Proof.
  induction pad as [|c pad IH]; simpl; [reflexivity|].
  intros H. apply andb_true_iff in H as [Hc Hpad]. rewrite Hc. now apply IH.
Qed.

Lemma drop_while_all pad :
  forallb is_space pad = true -> drop_while is_space pad = [].
Proof.
  intros H. rewrite <- (app_nil_r pad). now rewrite drop_while_spaces.
Qed.

Lemma drop_while_app s s' :
  drop_while is_space s <> [] ->
  drop_while is_space (s ++ s') = drop_while is_space s ++ s'.
Proof.
  induction s as [|c s IH]; simpl; [contradiction|].
  destruct (is_space c); [exact IH | reflexivity].
Qed.

Lemma drop_while_only_spaces s :
  drop_while is_space s = [] -> forallb is_space s = true.
Proof.
  induction s as [|c s IH]; simpl; [reflexivity|].
  destruct (is_space c); [exact IH | discriminate].
Qed.

Lemma forallb_rev (p : N -> bool) l :
  forallb p l = true -> forallb p (rev l) = true.
Proof.
  rewrite !forallb_forall. intros H x Hx. apply H. now apply in_rev.
Qed.

Lemma trim_padding pad author pad' :
  forallb is_space pad = true -> forallb is_space pad' = true ->
  trim (pad ++ author ++ pad') = trim author.
Proof.
  intros Hpad Hpad'. unfold trim.
  rewrite (@drop_while_spaces pad (author ++ pad') Hpad).
  destruct (drop_while is_space author) as [|c rest] eqn:E.
  - apply drop_while_only_spaces in E.
    assert (Hall : forallb is_space (author ++ pad') = true)
      by (rewrite forallb_app; now rewrite E, Hpad').
    now rewrite (@drop_while_all (author ++ pad') Hall).
  - rewrite drop_while_app by (rewrite E; discriminate).
    rewrite E, rev_app_distr.
    now rewrite (@drop_while_spaces (rev pad') (rev (c :: rest))
                   (@forallb_rev is_space pad' Hpad')).
Qed.

(** X18: white space before and after an author string, as left around
    the commas of the list, does not change whether the string matches
    the author pattern. *)
Theorem author_padding_ignored pad author pad' :
  forallb is_space pad = true -> forallb is_space pad' = true ->
  author_matches (pad ++ author ++ pad') = author_matches author.
Proof.
  intros Hpad Hpad'. unfold author_matches.
  now rewrite (@trim_padding pad author pad' Hpad Hpad').
Qed.

Lemma author_padding_ignored_witness :
  author_matches (str "  " ++ str "Jane Doe (@janedoe)" ++ str " ")
  = author_matches (str "Jane Doe (@janedoe)").
Proof.
  apply (@author_padding_ignored
           (str "  ") (str "Jane Doe (@janedoe)") (str " ")).
  - reflexivity.
  - reflexivity.
Defined.
